(** * Slimmable cGAN-PD, image size 32: generator and discriminator

    A shallow embedding of
    [torch_mimicry/nets/slimmable_cgan_pd/slimmable_cgan_pd_32.py].

    The two classes of that file compose layers of torch and of
    [torch_mimicry.modules]; the development is organised accordingly:

    - [Py]: the Python values the file manipulates (exceptions, [int] of a
      float, list indexing with negative indices);
    - [Torch]: the tensor operations the file calls directly ([view],
      [torch.sum], [*], [+=], [torch.tanh], [nn.ReLU], [torch.randint]);
    - [Layers]: the interface of the layer classes the file imports;
    - [Nets]: [SlimmableCGANPDGenerator32] and
      [SlimmableCGANPDDiscriminator32], constructor and [forward];
    - [Spec]: the plain compositions and the shape contracts the
      properties are stated with;
    - [Toy]: a small executable instance of the layer interface;
    - the properties.

    Floats are idealised: a width multiplier is a rational (the multiples of
    0.25 are exact binary floats, and so are their quotients by 0.25), a
    tensor element is a real number. *)

From Stdlib Require Import ZArith QArith Reals Lra Lia.
From stdpp Require Import base list.

Set Default Proof Using "Type".

(* ===================================================================== *)
(** * Python values *)
(* ===================================================================== *)

Module Py.

(** The exceptions that can leave the modelled code. *)
Inductive exn : Set :=
| IndexError | TypeError | RuntimeError | AssertionError | ValueError.

Inductive result (A : Type) : Type :=
| Ok (a : A)
| Raise (e : exn).
Arguments Ok {A} a.
Arguments Raise {A} e.

#[export] Instance result_ret : MRet result := fun _ a => Ok a.
#[export] Instance result_bind : MBind result := fun _ _ f m =>
  match m with Ok a => f a | Raise e => Raise e end.

(** Whether a computation returned. *)
Definition returns {A} (r : result A) : bool :=
  match r with Ok _ => true | Raise _ => false end.

(** A computation over a mutable object graph of type [S] that may raise:
    the state reached so far survives an exception. *)
Definition M (S A : Type) : Type := S -> result A * S.

#[export] Instance M_ret {S} : MRet (M S) := fun _ a s => (Ok a, s).
#[export] Instance M_bind {S} : MBind (M S) := fun _ _ f m s =>
  match m s with
  | (Ok a, s') => f a s'
  | (Raise e, s') => (Raise e, s')
  end.

(** A pure step that may raise. *)
Definition lift {S A} (r : result A) : M S A := fun s => (r, s).

(** Reading an attribute of [self]. *)
Definition attr {S A} (f : S -> A) : M S A := fun s => (Ok (f s), s).

(** [int(q)]: truncation towards zero. *)
Definition int (q : Q) : Z := Z.quot (Qnum q) (Zpos (Qden q)).

(** [l[i]] on a list or an [nn.ModuleList]: a negative index counts from
    the end, an index outside [-len, len) raises [IndexError]. *)
Definition abs_index (len : nat) (i : Z) : result nat :=
  let n := Z.of_nat len in
  if ((i <? - n) || (n <=? i))%Z then Raise IndexError
  else Ok (Z.to_nat (if (i <? 0)%Z then i + n else i)%Z).

Definition getitem {A} (l : list A) (i : Z) : result A :=
  k ← abs_index (length l) i;
  match l !! k with
  | Some a => Ok a
  | None => Raise IndexError
  end.

(** [l.index(q)] on a list of floats. *)
Fixpoint index (l : list Q) (q : Q) : result nat :=
  match l with
  | [] => Raise ValueError
  | q' :: l' =>
      if Qeq_bool q' q then Ok 0
      else match index l' q with Ok k => Ok (S k) | Raise e => Raise e end
  end.

End Py.

Import Py.

(* ===================================================================== *)
(** * Tensors *)
(* ===================================================================== *)

Module Torch.

Inductive Device : Set := cpu | cuda (n : nat).

#[export] Instance Device_eq_dec : EqDecision Device.
Proof. solve_decision. Defined.

(** A tensor: its shape, its elements in row-major order, its device. *)
Record Tensor : Type := mkTensor {
  shape : list nat;
  data : list R;
  device : Device
}.

Definition numel (sh : list nat) : nat := foldr Nat.mul 1 sh.

(** [x.shape[0]] *)
Definition shape0 (x : Tensor) : result nat :=
  match shape x with
  | n :: _ => Ok n
  | [] => Raise IndexError
  end.

(** [h.view(d0, -1, d2, d3)]: the second dimension is inferred. It is an
    error when another dimension is negative, when the known dimensions
    multiply to zero (the inferred one is then ambiguous or impossible),
    or when they do not divide the number of elements. *)
Definition view_infer1 (h : Tensor) (d0 : nat) (d2 d3 : Z) : result Tensor :=
  if ((d2 <? 0) || (d3 <? 0))%Z then Raise RuntimeError
  else
    let known := d0 * Z.to_nat d2 * Z.to_nat d3 in
    if known =? 0 then Raise RuntimeError
    else if numel (shape h) mod known =? 0
    then Ok (mkTensor [d0; numel (shape h) / known; Z.to_nat d2; Z.to_nat d3]
               (data h) (device h))
    else Raise RuntimeError.

(** Row-major data cut into [n] consecutive rows of [k] elements. *)
Fixpoint chunks (n k : nat) (l : list R) : list (list R) :=
  match n with
  | O => []
  | S n' => take k l :: chunks n' k (drop k l)
  end.

Definition vsum (k : nat) (rows : list (list R)) : list R :=
  foldr (zip_with Rplus) (replicate k 0%R) rows.

(** Sum over the middle axis of data laid out as [outer x mid x inner]. *)
Definition reduce_mid (outer mid inner : nat) (d : list R) : list R :=
  concat (map (fun c => vsum inner (chunks mid inner c))
            (chunks outer (mid * inner) d)).

(** [torch.sum(h, dim=(2, 3))] *)
Definition sum_dim23 (h : Tensor) : result Tensor :=
  match shape h with
  | n :: c :: hh :: ww :: rest =>
      Ok (mkTensor (n :: c :: rest)
            (reduce_mid (n * c) (hh * ww) (numel rest) (data h)) (device h))
  | _ => Raise IndexError
  end.

(** [torch.sum(t, dim=1, keepdim=True)] *)
Definition sum_dim1_keepdim (t : Tensor) : result Tensor :=
  match shape t with
  | n :: f :: rest =>
      Ok (mkTensor (n :: 1 :: rest)
            (reduce_mid n f (numel rest) (data t)) (device t))
  | _ => Raise IndexError
  end.

(** Broadcasting of two shapes of the same rank. *)
Fixpoint bshape (sa sb : list nat) : option (list nat) :=
  match sa, sb with
  | [], [] => Some []
  | da :: sa', db :: sb' =>
      match bshape sa' sb' with
      | Some r =>
          if da =? db then Some (da :: r)
          else if da =? 1 then Some (db :: r)
          else if db =? 1 then Some (da :: r)
          else None
      | None => None
      end
  | _, _ => None
  end.

(** A shape padded on the left with ones up to rank [r]. *)
Definition pad (r : nat) (sh : list nat) : list nat :=
  replicate (r - length sh) 1 ++ sh.

Definition broadcast_shapes (sa sb : list nat) : option (list nat) :=
  let r := length sa `max` length sb in
  bshape (pad r sa) (pad r sb).

(** The elements of [f a b] under broadcasting, for shapes of one rank. *)
Fixpoint bdata (f : R -> R -> R) (sa sb : list nat) (a b : list R) : list R :=
  match sa, sb with
  | da :: sa', db :: sb' =>
      let ca := chunks da (numel sa') a in
      let cb := chunks db (numel sb') b in
      if da =? db then concat (zip_with (bdata f sa' sb') ca cb)
      else if da =? 1 then concat (map (bdata f sa' sb' a) cb)
      else concat (map (fun x => bdata f sa' sb' x b) ca)
  | _, _ => zip_with f a b
  end.

Definition binop (f : R -> R -> R) (a b : Tensor) : result Tensor :=
  if decide (device a = device b) then
    match broadcast_shapes (shape a) (shape b) with
    | Some s =>
        let r := length (shape a) `max` length (shape b) in
        Ok (mkTensor s
              (bdata f (pad r (shape a)) (pad r (shape b)) (data a) (data b))
              (device a))
    | None => Raise RuntimeError
    end
  else Raise RuntimeError.

(** [a * b] *)
Definition mul (a b : Tensor) : result Tensor := binop Rmult a b.

(** [a += b]: the result must keep the shape of [a]. *)
Definition iadd (a b : Tensor) : result Tensor :=
  r ← binop Rplus a b;
  if decide (shape r = shape a) then Ok r else Raise RuntimeError.

Definition map_data (f : R -> R) (t : Tensor) : Tensor :=
  mkTensor (shape t) (map f (data t)) (device t).

(** [nn.ReLU(True)], in place on its argument. *)
Definition relu_ (h : Tensor) : Tensor := map_data (Rmax 0) h.

(** [torch.tanh] *)
Definition tanh (h : Tensor) : Tensor := map_data Rtrigo_def.tanh h.

(** The state of torch's global random number generator is abstract: a
    draw of [n] integers in [[low, high)] returns them with the next
    state. *)
Class Generator : Type := {
  Rng : Type;
  draw : Rng -> Z -> Z -> nat -> list Z * Rng
}.

(** What [torch.randint] promises of a draw. *)
Class GeneratorSpec (G : Generator) : Prop := {
  draw_length : forall g low high n, length (draw g low high n).1 = n;
  draw_range : forall g low high n z,
    (low < high)%Z -> z ∈ (draw g low high n).1 -> (low <= z < high)%Z
}.

(** [torch.randint(low=low, high=high, size=(n,), device=dev)] *)
Definition randint `{Generator} (low high : Z) (n : nat) (dev : Device)
  : M Rng Tensor := fun g =>
  if (low <? high)%Z then
    let '(zs, g') := draw g low high n in
    (Ok (mkTensor [n] (map IZR zs) dev), g')
  else (Raise RuntimeError, g).

End Torch.

Import Torch.

(* ===================================================================== *)
(** * The imported layer classes *)
(* ===================================================================== *)

Module Layers.

(** [torch_mimicry.modules.slimmable_ops.FLAGS]: the global switch.
    [width_mult] is reassigned between calls by the training and
    evaluation loops; nothing in the modelled file writes it. *)
Record FLAGS : Type := mkFLAGS {
  width_mult : Q;
  width_mult_list : list Q
}.

Definition set_width_mult (w : Q) (fl : FLAGS) : FLAGS :=
  mkFLAGS w (width_mult_list fl).

(** Modelled from the spec: [SlimmableLinear] (in [slimmable_ops], not
    part of the modelled file) is one linear layer whose single weight
    is sliced according to the active width multiplier; it keeps the
    per-width feature counts it was built with next to the parameters
    [P] of the full-width layer. *)
Record SlimmableLinear (P : Type) : Type := mkSlimmableLinear {
  in_features_list : list Z;
  out_features_list : list Z;
  linear : P
}.
Arguments mkSlimmableLinear {P}.
Arguments in_features_list {P}.
Arguments out_features_list {P}.
Arguments linear {P}.

(** Modelled from the spec: [SlimmableConv2d] (in [slimmable_ops]), the
    same for a convolution. *)
Record SlimmableConv2d (P : Type) : Type := mkSlimmableConv2d {
  in_channels_list : list Z;
  out_channels_list : list Z;
  kernel_size : Z;
  stride : Z;
  padding : Z;
  conv : P
}.
Arguments mkSlimmableConv2d {P}.
Arguments in_channels_list {P}.
Arguments out_channels_list {P}.
Arguments kernel_size {P}.
Arguments stride {P}.
Arguments padding {P}.
Arguments conv {P}.

(** Modelled from the spec: [SwitchableBatchNorm2d] (in [slimmable_ops])
    is the batch normalisation that maintains per-width statistics: one
    [nn.BatchNorm2d] per entry of [num_features_list]. *)
Record SwitchableBatchNorm2d (B : Type) : Type := mkSwitchableBatchNorm2d {
  num_features_list : list Z;
  bn : list B
}.
Arguments mkSwitchableBatchNorm2d {B}.
Arguments num_features_list {B}.
Arguments bn {B}.

(** What the modelled file takes from torch and from
    [torch_mimicry.modules]: for each layer class the type of its stored
    state (weights and buffers), its constructor, and its call. A call
    runs on the state of the layer and may update it; a constructor
    draws the initial weights from torch's generator. *)
Class Modules `{Generator} : Type := {
  (* torch.nn *)
  LinearP : Type;
  Linear_new : Z -> Z -> M Rng LinearP;
  Linear_xavier_uniform_ : LinearP -> M Rng LinearP;
  Conv2dP : Type;
  Conv2d_new : Z -> Z -> Z -> Z -> Z -> M Rng Conv2dP;
  Conv2d_xavier_uniform_ : Conv2dP -> M Rng Conv2dP;
  BatchNorm2d : Type;
  BatchNorm2d_new : Z -> BatchNorm2d;
  BatchNorm2d_call : Tensor -> M BatchNorm2d Tensor;
  (* torch_mimicry.modules.slimmable_ops *)
  SlimmableLinear_call : FLAGS -> Tensor -> M (SlimmableLinear LinearP) Tensor;
  SlimmableConv2d_call : FLAGS -> Tensor -> M (SlimmableConv2d Conv2dP) Tensor;
  (* torch_mimicry.modules.layers *)
  SNLinear : Type;
  SNLinear_new : Z -> Z -> M Rng SNLinear;
  SNLinear_call : Tensor -> M SNLinear Tensor;
  SNLinear_xavier_uniform_ : SNLinear -> M Rng SNLinear;
  SNEmbedding : Type;
  SNEmbedding_new : Z -> Z -> M Rng SNEmbedding;
  SNEmbedding_call : Tensor -> M SNEmbedding Tensor;
  SNEmbedding_xavier_uniform_ : SNEmbedding -> M Rng SNEmbedding;
  (* torch_mimicry.modules.resblocks *)
  DBlockOptimized : Type;
  DBlockOptimized_new : Z -> Z -> M Rng DBlockOptimized;
  DBlockOptimized_call : Tensor -> M DBlockOptimized Tensor;
  DBlock : Type;
  DBlock_new : Z -> Z -> bool -> M Rng DBlock;
  DBlock_call : Tensor -> M DBlock Tensor;
  SlimmableGBlock : Type;
  SlimmableGBlock_new : FLAGS -> Z -> Z -> bool -> Z -> M Rng SlimmableGBlock;
  SlimmableGBlock_call : FLAGS -> Tensor -> Tensor -> M SlimmableGBlock Tensor
}.

(** [max(l)] of a list of ints. *)
Definition max_list (l : list Z) : result Z :=
  match l with
  | [] => Raise ValueError
  | z :: l' => Ok (foldl Z.max z l')
  end.

Section Slimmable.
Context `{Modules}.

(** [SlimmableLinear(in_features_list, out_features_list)] *)
Definition SlimmableLinear_new (ins outs : list Z)
  : M Rng (SlimmableLinear LinearP) :=
  i ← lift (max_list ins);
  o ← lift (max_list outs);
  p ← Linear_new i o;
  mret (mkSlimmableLinear ins outs p).

(** [SlimmableConv2d(in_channels_list, out_channels_list, k, s,
    padding=p)] *)
Definition SlimmableConv2d_new (ins outs : list Z) (k s p : Z)
  : M Rng (SlimmableConv2d Conv2dP) :=
  i ← lift (max_list ins);
  o ← lift (max_list outs);
  c ← Conv2d_new i o k s p;
  mret (mkSlimmableConv2d ins outs k s p c).

(** [SwitchableBatchNorm2d(num_features_list)] *)
Definition SwitchableBatchNorm2d_new (nfs : list Z)
  : SwitchableBatchNorm2d BatchNorm2d :=
  mkSwitchableBatchNorm2d nfs (map BatchNorm2d_new nfs).

(** Modelled from the spec: the call of [SwitchableBatchNorm2d] (in
    [slimmable_ops]) runs the batch normalisation kept for the active
    width multiplier, the one at the position of [FLAGS.width_mult] in
    [FLAGS.width_mult_list], and only its statistics are updated. *)
Definition SwitchableBatchNorm2d_call (fl : FLAGS) (h : Tensor)
  : M (SwitchableBatchNorm2d BatchNorm2d) Tensor := fun s =>
  match index (width_mult_list fl) (width_mult fl) with
  | Raise e => (Raise e, s)
  | Ok i =>
      match bn s !! i with
      | None => (Raise IndexError, s)
      | Some b =>
          let '(r, b') := BatchNorm2d_call h b in
          (r, mkSwitchableBatchNorm2d (num_features_list s) (<[i := b']> (bn s)))
      end
  end.

(** Modelled from the spec: a label embedding looks its argument up in
    its table, so the call of [SNEmbedding] (in
    [torch_mimicry.modules.layers]) on [None] in place of a tensor of
    labels raises. *)
Definition SNEmbedding_call_opt (y : option Tensor) : M SNEmbedding Tensor :=
  match y with
  | Some t => SNEmbedding_call t
  | None => lift (Raise TypeError)
  end.

End Slimmable.

End Layers.

Import Layers.

(* ===================================================================== *)
(** * The networks *)
(* ===================================================================== *)

Module Nets.

(** Running a computation on a part [T] of the state [S]. *)
Definition zoom {S T A} (get : S -> T) (set : T -> S -> S) (m : M T A) : M S A :=
  fun s => let '(r, t) := m (get s) in (r, set t s).

(** [ms[i](h)] on an [nn.ModuleList]: the module at Python index [i] is
    called, and it is that object of the list whose state the call
    updates. *)
Definition call_item {A X} (call : X -> M A Tensor) (i : Z) (h : X)
  : M (list A) Tensor := fun ms =>
  match abs_index (length ms) i with
  | Raise e => (Raise e, ms)
  | Ok k =>
      match ms !! k with
      | None => (Raise IndexError, ms)
      | Some m => let '(r, m') := call h m in (r, <[k := m']> ms)
      end
  end.

Section Nets.
Context `{Modules}.

(** ** Generator *)

(** The attributes [num_classes], [nz], [ngf], [bottom_width], [alpha]
    and [stepwise] are those the base class constructor stores from
    the arguments of the same names. *)
Record SlimmableCGANPDGenerator32 : Type := mkG {
  g_num_classes : Z;
  nz : Z;
  ngf : Z;
  bottom_width : Z;
  alpha : Q;
  stepwise : bool;
  l1 : SlimmableLinear LinearP;
  block2 : SlimmableGBlock;
  block3 : SlimmableGBlock;
  block4 : SlimmableGBlock;
  b5 : SwitchableBatchNorm2d BatchNorm2d;
  c5 : SlimmableConv2d Conv2dP
}.

Definition set_l1 v (g : SlimmableCGANPDGenerator32) :=
  mkG (g_num_classes g) (nz g) (ngf g) (bottom_width g) (alpha g) (stepwise g)
    v (block2 g) (block3 g) (block4 g) (b5 g) (c5 g).
Definition set_block2 v (g : SlimmableCGANPDGenerator32) :=
  mkG (g_num_classes g) (nz g) (ngf g) (bottom_width g) (alpha g) (stepwise g)
    (l1 g) v (block3 g) (block4 g) (b5 g) (c5 g).
Definition set_block3 v (g : SlimmableCGANPDGenerator32) :=
  mkG (g_num_classes g) (nz g) (ngf g) (bottom_width g) (alpha g) (stepwise g)
    (l1 g) (block2 g) v (block4 g) (b5 g) (c5 g).
Definition set_block4 v (g : SlimmableCGANPDGenerator32) :=
  mkG (g_num_classes g) (nz g) (ngf g) (bottom_width g) (alpha g) (stepwise g)
    (l1 g) (block2 g) (block3 g) v (b5 g) (c5 g).
Definition set_b5 v (g : SlimmableCGANPDGenerator32) :=
  mkG (g_num_classes g) (nz g) (ngf g) (bottom_width g) (alpha g) (stepwise g)
    (l1 g) (block2 g) (block3 g) (block4 g) v (c5 g).
Definition set_c5 v (g : SlimmableCGANPDGenerator32) :=
  mkG (g_num_classes g) (nz g) (ngf g) (bottom_width g) (alpha g) (stepwise g)
    (l1 g) (block2 g) (block3 g) (block4 g) (b5 g) v.

(** [nn.init.xavier_uniform_(self.l1.weight.data, 1.0)] *)
Definition l1_xavier (l : SlimmableLinear LinearP) : M Rng (SlimmableLinear LinearP) :=
  p ← Linear_xavier_uniform_ (linear l);
  mret (mkSlimmableLinear (in_features_list l) (out_features_list l) p).

(** [nn.init.xavier_uniform_(self.c5.weight.data, 1.0)] *)
Definition c5_xavier (c : SlimmableConv2d Conv2dP) : M Rng (SlimmableConv2d Conv2dP) :=
  p ← Conv2d_xavier_uniform_ (conv c);
  mret (mkSlimmableConv2d (in_channels_list c) (out_channels_list c)
          (kernel_size c) (stride c) (padding c) p).

(** [SlimmableCGANPDGenerator32.__init__] *)
Definition G_init (fl : FLAGS) (num_classes nz ngf bottom_width : Z)
    (alpha : Q) (stepwise : bool) : M Rng SlimmableCGANPDGenerator32 :=
  let wl := width_mult_list fl in
  l1 ← SlimmableLinear_new
         (map (fun _ => nz) wl)
         (map (fun w => int (inject_Z (bottom_width ^ 2 * ngf) * w)) wl);
  block2 ← SlimmableGBlock_new fl ngf ngf true num_classes;
  block3 ← SlimmableGBlock_new fl ngf ngf true num_classes;
  block4 ← SlimmableGBlock_new fl ngf ngf true num_classes;
  let b5 := SwitchableBatchNorm2d_new (map (fun w => int (inject_Z ngf * w)) wl) in
  c5 ← SlimmableConv2d_new
         (map (fun w => int (inject_Z ngf * w)) wl)
         (map (fun _ => 3%Z) wl) 3 1 1;
  l1 ← l1_xavier l1;
  c5 ← c5_xavier c5;
  mret (mkG num_classes nz ngf bottom_width alpha stepwise
          l1 block2 block3 block4 b5 c5).

(** The state a call of the generator runs on: the module and torch's
    generator. *)
Definition onG {T A} (get : SlimmableCGANPDGenerator32 -> T)
    (set : T -> SlimmableCGANPDGenerator32 -> SlimmableCGANPDGenerator32)
    (m : M T A) : M (SlimmableCGANPDGenerator32 * Rng) A :=
  zoom (fun s => get s.1) (fun t s => (set t s.1, s.2)) m.

Definition on_rng {A} (m : M Rng A) : M (SlimmableCGANPDGenerator32 * Rng) A :=
  zoom snd (fun r s => (s.1, r)) m.

(** [SlimmableCGANPDGenerator32.forward] *)
Definition G_forward (fl : FLAGS) (x : Tensor) (y : option Tensor)
  : M (SlimmableCGANPDGenerator32 * Rng) Tensor :=
  y ← match y with
      | None =>
          high ← attr (fun s => g_num_classes s.1);
          n ← lift (shape0 x);
          on_rng (randint 0 high n (device x))
      | Some y => mret y
      end;
  h ← onG l1 set_l1 (SlimmableLinear_call fl x);
  n ← lift (shape0 x);
  bw ← attr (fun s => bottom_width s.1);
  h ← lift (view_infer1 h n bw bw);
  h ← onG block2 set_block2 (SlimmableGBlock_call fl h y);
  h ← onG block3 set_block3 (SlimmableGBlock_call fl h y);
  h ← onG block4 set_block4 (SlimmableGBlock_call fl h y);
  h ← onG b5 set_b5 (SwitchableBatchNorm2d_call fl h);
  h ← mret (relu_ h);
  h ← onG c5 set_c5 (SlimmableConv2d_call fl h);
  h ← mret (tanh h);
  mret h.

(** ** Discriminator *)

(** [num_classes], [ndf] and [n_share] are stored by the base class
    constructor. *)
Record SlimmableCGANPDDiscriminator32 : Type := mkD {
  d_num_classes : Z;
  ndf : Z;
  n_share : Z;
  block1s : list DBlockOptimized;
  block2s : list DBlock;
  block3s : list DBlock;
  block4s : list DBlock;
  l5s : list SNLinear;
  l_ys : list SNEmbedding
}.

Definition set_block1s v (d : SlimmableCGANPDDiscriminator32) :=
  mkD (d_num_classes d) (ndf d) (n_share d)
    v (block2s d) (block3s d) (block4s d) (l5s d) (l_ys d).
Definition set_block2s v (d : SlimmableCGANPDDiscriminator32) :=
  mkD (d_num_classes d) (ndf d) (n_share d)
    (block1s d) v (block3s d) (block4s d) (l5s d) (l_ys d).
Definition set_block3s v (d : SlimmableCGANPDDiscriminator32) :=
  mkD (d_num_classes d) (ndf d) (n_share d)
    (block1s d) (block2s d) v (block4s d) (l5s d) (l_ys d).
Definition set_block4s v (d : SlimmableCGANPDDiscriminator32) :=
  mkD (d_num_classes d) (ndf d) (n_share d)
    (block1s d) (block2s d) (block3s d) v (l5s d) (l_ys d).
Definition set_l5s v (d : SlimmableCGANPDDiscriminator32) :=
  mkD (d_num_classes d) (ndf d) (n_share d)
    (block1s d) (block2s d) (block3s d) (block4s d) v (l_ys d).
Definition set_l_ys v (d : SlimmableCGANPDDiscriminator32) :=
  mkD (d_num_classes d) (ndf d) (n_share d)
    (block1s d) (block2s d) (block3s d) (block4s d) (l5s d) v.

(** The loop [for width_mult in FLAGS.width_mult_list] of the
    constructor: one branch of each kind is appended per entry. *)
Fixpoint D_layers (wl : list Q) (d : SlimmableCGANPDDiscriminator32)
  : M Rng SlimmableCGANPDDiscriminator32 :=
  match wl with
  | [] => mret d
  | _ :: wl' =>
      b1 ← DBlockOptimized_new 3 (ndf d);
      b2 ← DBlock_new (ndf d) (ndf d) true;
      b3 ← DBlock_new (ndf d) (ndf d) false;
      b4 ← DBlock_new (ndf d) (ndf d) false;
      l5 ← SNLinear_new (ndf d) 1;
      ly ← SNEmbedding_new (d_num_classes d) (ndf d);
      D_layers wl'
        (mkD (d_num_classes d) (ndf d) (n_share d)
           (block1s d ++ [b1]) (block2s d ++ [b2]) (block3s d ++ [b3])
           (block4s d ++ [b4]) (l5s d ++ [l5]) (l_ys d ++ [ly]))
  end.

(** [SlimmableCGANPDDiscriminator32.__init__] *)
Definition D_init (fl : FLAGS) (num_classes ndf n_share : Z)
  : M Rng SlimmableCGANPDDiscriminator32 :=
  if negb ((-1 <=? n_share) && (n_share <=? 4))%Z
  then lift (Raise AssertionError)
  else
    d ← D_layers (width_mult_list fl) (mkD num_classes ndf n_share [] [] [] [] [] []);
    l5s' ← mapM SNLinear_xavier_uniform_ (l5s d);
    l_ys' ← mapM SNEmbedding_xavier_uniform_ (l_ys d);
    mret (set_l_ys l_ys' (set_l5s l5s' d)).

(** [SlimmableCGANPDDiscriminator32.forward] *)
Definition D_forward (fl : FLAGS) (x : Tensor) (y : option Tensor)
  : M SlimmableCGANPDDiscriminator32 Tensor :=
  let idx := (int (width_mult fl / (1 # 4)) - 1)%Z in
  let h := x in
  share ← attr n_share;
  h ← zoom block1s set_block1s
        (call_item DBlockOptimized_call (if (share >? 0)%Z then -1 else idx) h);
  share ← attr n_share;
  h ← zoom block2s set_block2s
        (call_item DBlock_call (if (share >? 1)%Z then -1 else idx) h);
  share ← attr n_share;
  h ← zoom block3s set_block3s
        (call_item DBlock_call (if (share >? 2)%Z then -1 else idx) h);
  share ← attr n_share;
  h ← zoom block4s set_block4s
        (call_item DBlock_call (if (share >? 3)%Z then -1 else idx) h);
  h ← mret (relu_ h);
  h ← lift (sum_dim23 h);
  share ← attr n_share;
  output ← zoom l5s set_l5s
        (call_item SNLinear_call (if (share =? -1)%Z then -1 else idx) h);
  w_y ← zoom l_ys set_l_ys (call_item SNEmbedding_call_opt idx y);
  p ← lift (mul w_y h);
  s ← lift (sum_dim1_keepdim p);
  output ← lift (iadd output s);
  mret output.

End Nets.

End Nets.

Import Nets.

(* ===================================================================== *)
(** * Reference computations *)
(* ===================================================================== *)

(** What the claims about the two [forward] methods compare them with:
    the same networks written as plain compositions, without the module
    state and without the index arithmetic. *)

Module Spec.

(** The value a call returns from a given state. *)
Definition value {S A} (m : M S A) (s : S) : result A := (m s).1.

(** The call of the module at position [k] of a list. *)
Definition call_at {A X} (call : X -> M A Tensor) (k : nat) (a : X)
  : M (list A) Tensor := fun ms =>
  match ms !! k with
  | None => (Raise IndexError, ms)
  | Some m => let '(r, m') := call a m in (r, <[k := m']> ms)
  end.

(** A call maps every tensor of shape [sin] to a tensor of shape [sout]
    on the same device. *)
Definition maps_shape {S} (call : Tensor -> M S Tensor) (s : S)
    (sin sout : list nat) : Prop :=
  forall h, shape h = sin ->
    exists t s', call h s = (Ok t, s') /\ shape t = sout /\ device t = device h.

(** A property of the state that a computation maintains, whether it
    returns or raises. *)
Definition preserves {S A} (Q : S -> Prop) (m : M S A) : Prop :=
  forall s r s', Q s -> m s = (r, s') -> Q s'.

(** A call that leaves the state of its layer as it found it. *)
Definition read_only {S X A} (call : X -> M S A) : Prop :=
  forall x s, (call x s).2 = s.

(** Every element of the tensor lies in [[-1, 1]]. *)
Definition in_unit_range (t : Tensor) : Prop :=
  Forall (fun r => (-1 <= r <= 1)%R) (data t).

(** A tensor of labels: integers in [[0, num_classes)]. *)
Definition labels_below (num_classes : Z) (y : Tensor) : Prop :=
  Forall (fun r => exists z, r = IZR z /\ (0 <= z < num_classes)%Z) (data y).

Section Spec.
Context `{Modules}.

(** The discriminator routed through fixed positions of its six
    lists. *)
Definition D_forward_at (k1 k2 k3 k4 k5 ky : nat) (x : Tensor)
    (y : option Tensor) : M SlimmableCGANPDDiscriminator32 Tensor :=
  h ← zoom block1s set_block1s (call_at DBlockOptimized_call k1 x);
  h ← zoom block2s set_block2s (call_at DBlock_call k2 h);
  h ← zoom block3s set_block3s (call_at DBlock_call k3 h);
  h ← zoom block4s set_block4s (call_at DBlock_call k4 h);
  h ← lift (sum_dim23 (relu_ h));
  output ← zoom l5s set_l5s (call_at SNLinear_call k5 h);
  w_y ← zoom l_ys set_l_ys (call_at SNEmbedding_call_opt ky y);
  p ← lift (mul w_y h);
  s ← lift (sum_dim1_keepdim p);
  lift (iadd output s).

(** The six lists of a discriminator have [n] branches each. *)
Definition branches (d : SlimmableCGANPDDiscriminator32) (n : nat) : Prop :=
  length (block1s d) = n /\ length (block2s d) = n /\
  length (block3s d) = n /\ length (block4s d) = n /\
  length (l5s d) = n /\ length (l_ys d) = n.

(** Projection logits: [l5(h) + sum over the feature dimension of
    (embedding(y) * h)], with [h] the sum over the spatial dimensions
    of the rectified output of the blocks. *)
Definition projection_logits (blocks l5 embedding : Tensor -> result Tensor)
    (x y : Tensor) : result Tensor :=
  f ← blocks x;
  h ← sum_dim23 (relu_ f);
  o ← l5 h;
  w_y ← embedding y;
  p ← mul w_y h;
  s ← sum_dim1_keepdim p;
  iadd o s.

(** The four D-blocks in sequence. *)
Definition D_blocks (b1 : DBlockOptimized) (b2 b3 b4 : DBlock) (x : Tensor)
  : result Tensor :=
  h ← value (DBlockOptimized_call x) b1;
  h ← value (DBlock_call h) b2;
  h ← value (DBlock_call h) b3;
  value (DBlock_call h) b4.

(** The modules [forward] selects from the six lists. *)
Definition D_selected (fl : FLAGS) (d : SlimmableCGANPDDiscriminator32)
  : result (DBlockOptimized * DBlock * DBlock * DBlock * SNLinear * SNEmbedding) :=
  let idx := (int (width_mult fl / (1 # 4)) - 1)%Z in
  b1 ← getitem (block1s d) (if (n_share d >? 0)%Z then -1 else idx);
  b2 ← getitem (block2s d) (if (n_share d >? 1)%Z then -1 else idx);
  b3 ← getitem (block3s d) (if (n_share d >? 2)%Z then -1 else idx);
  b4 ← getitem (block4s d) (if (n_share d >? 3)%Z then -1 else idx);
  l5 ← getitem (l5s d) (if (n_share d =? -1)%Z then -1 else idx);
  e ← getitem (l_ys d) idx;
  Ok (b1, b2, b3, b4, l5, e).

(** [tanh(c5(ReLU(b5(block4(block3(block2(reshape(l1(x)), y), y),
    y)))))] with the layers of [g]. *)
Definition G_composition (fl : FLAGS) (g : SlimmableCGANPDGenerator32)
    (x y : Tensor) : result Tensor :=
  h ← value (SlimmableLinear_call fl x) (l1 g);
  n ← shape0 x;
  h ← view_infer1 h n (bottom_width g) (bottom_width g);
  h ← value (SlimmableGBlock_call fl h y) (block2 g);
  h ← value (SlimmableGBlock_call fl h y) (block3 g);
  h ← value (SlimmableGBlock_call fl h y) (block4 g);
  h ← value (SwitchableBatchNorm2d_call fl h) (b5 g);
  c ← value (SlimmableConv2d_call fl (relu_ h)) (c5 g);
  Ok (tanh c).

(** The channels of the active width, [int(ngf * w)], and the output
    features of [l1] at that width, [int(bottom_width^2 * ngf * w)]. *)
Definition channels (fl : FLAGS) (ngf : Z) : Z :=
  int (inject_Z ngf * width_mult fl).
Definition l1_features (fl : FLAGS) (bottom_width ngf : Z) : Z :=
  int (inject_Z (bottom_width ^ 2 * ngf) * width_mult fl).

(** A block of the generator that doubles the spatial dimensions of
    [n] feature maps of [c] channels. *)
Definition upsamples (fl : FLAGS) (b : SlimmableGBlock) (n c : nat) : Prop :=
  forall h y hh ww,
    shape h = [n; c; hh; ww] -> shape y = [n] -> device y = device h ->
    exists t b', SlimmableGBlock_call fl h y b = (Ok t, b') /\
      shape t = [n; c; 2 * hh; 2 * ww] /\ device t = device h.

(** The labels a call is given: a tensor of [n] labels on the device
    of the input, or [None] with classes to draw from. *)
Definition labels_for (x : Tensor) (n : nat) (num_classes : Z)
    (y : option Tensor) : Prop :=
  match y with
  | Some t => shape t = [n] /\ device t = device x
  | None => (0 < num_classes)%Z
  end.

(** The position [int(w / 0.25) - 1] selects. *)
Definition idx_of (fl : FLAGS) : Z := (int (width_mult fl / (1 # 4)) - 1)%Z.

(** The width multipliers are the multiples of 0.25 in increasing
    order: 0.25, 0.5, 0.75, ... *)
Definition quarters (wl : list Q) : Prop :=
  forall i w, wl !! i = Some w -> (w == inject_Z (Z.of_nat (S i)) / 4)%Q.

End Spec.

End Spec.

Import Spec.

(* ===================================================================== *)
(** * A small executable instance of the layer interface *)
(* ===================================================================== *)

(** Layers that respect the shapes of the real ones and are otherwise as
    simple as possible: each has one integer weight, taken from the
    generator when the layer is built; the layers of the discriminator and
    the batch normalisation count their calls, in the way a spectral
    normalisation or a running mean keeps a buffer. *)

Module Toy.

(** A tensor filled with one value. *)
Definition full (sh : list nat) (v : R) (dev : Device) : Tensor :=
  mkTensor sh (replicate (numel sh) v) dev.

Definition first (h : Tensor) : R := hd 0%R (data h).

Definition toy_draw (g : Z) (low high : Z) (n : nat) : list Z * Z :=
  (map (fun i => (low + (g + Z.of_nat i) mod (high - low))%Z) (seq 0 n),
   (g + Z.of_nat n)%Z).

#[export] Instance toy_generator : Generator :=
  {| Rng := Z; draw := toy_draw |}.

(** A fresh weight. *)
Definition fresh : M Z Z := fun g => (Ok g, (g + 1)%Z).

Record Counted : Type := mkCounted {
  c_in : Z; c_out : Z; c_down : bool; c_weight : Z; c_calls : nat
}.

Record GBlockP : Type := mkGBlockP {
  gb_in : Z; gb_out : Z; gb_up : bool; gb_classes : Z; gb_weight : Z
}.

Definition half (down : bool) (n : nat) : nat := if down then n / 2 else n.
Definition twice (up : bool) (n : nat) : nat := if up then 2 * n else n.

(** The feature count of the active width. *)
Definition active (fl : FLAGS) (l : list Z) : result nat :=
  i ← index (width_mult_list fl) (width_mult fl);
  match l !! i with
  | Some z => Ok (Z.to_nat z)
  | None => Raise IndexError
  end.

Definition scaled (fl : FLAGS) (c : Z) : nat :=
  Z.to_nat (int (inject_Z c * width_mult fl)).

Definition toy_bn_call (h : Tensor) : M (Z * nat) Tensor := fun s =>
  match shape h with
  | [n; c; hh; ww] =>
      if c =? Z.to_nat s.1 then (Ok h, (s.1, S s.2)) else (Raise RuntimeError, s)
  | _ => (Raise RuntimeError, s)
  end.

Definition toy_linear_call (fl : FLAGS) (x : Tensor) : M (SlimmableLinear Z) Tensor :=
  fun s =>
  match active fl (in_features_list s), active fl (out_features_list s), shape x with
  | Ok i, Ok o, [n; f] =>
      if f =? i then (Ok (full [n; o] (IZR (linear s)) (device x)), s)
      else (Raise RuntimeError, s)
  | _, _, _ => (Raise RuntimeError, s)
  end.

Definition toy_conv_call (fl : FLAGS) (x : Tensor) : M (SlimmableConv2d Z) Tensor :=
  fun s =>
  match active fl (in_channels_list s), active fl (out_channels_list s), shape x with
  | Ok i, Ok o, [n; c; hh; ww] =>
      if c =? i then (Ok (full [n; o; hh; ww] (IZR (conv s) + first x) (device x)), s)
      else (Raise RuntimeError, s)
  | _, _, _ => (Raise RuntimeError, s)
  end.

Definition count (s : Counted) : Counted :=
  mkCounted (c_in s) (c_out s) (c_down s) (c_weight s) (S (c_calls s)).

(** A linear layer and an embedding: [(n, in)] to [(n, out)], and
    [(n,)] to [(n, out)]. *)
Definition toy_sn_linear_call (x : Tensor) : M Counted Tensor := fun s =>
  match shape x with
  | [n; f] =>
      if f =? Z.to_nat (c_in s)
      then (Ok (full [n; Z.to_nat (c_out s)] (IZR (c_weight s)) (device x)), count s)
      else (Raise RuntimeError, s)
  | _ => (Raise RuntimeError, s)
  end.

Definition toy_embedding_call (y : Tensor) : M Counted Tensor := fun s =>
  match shape y with
  | [n] => (Ok (full [n; Z.to_nat (c_out s)] (IZR (c_weight s)) (device y)), count s)
  | _ => (Raise RuntimeError, s)
  end.

(** A residual block of the discriminator: [(n, in, h, w)] to
    [(n, out, h', w')], halving the spatial dimensions when it
    downsamples. *)
Definition toy_dblock_call (x : Tensor) : M Counted Tensor := fun s =>
  match shape x with
  | [n; c; hh; ww] =>
      if c =? Z.to_nat (c_in s)
      then (Ok (full [n; Z.to_nat (c_out s); half (c_down s) hh; half (c_down s) ww]
                  (IZR (c_weight s) + first x) (device x)), count s)
      else (Raise RuntimeError, s)
  | _ => (Raise RuntimeError, s)
  end.

(** A residual block of the generator at the active width:
    [(n, in * w, h, w)] and labels [(n,)] to [(n, out * w, 2h, 2w)]. *)
Definition toy_gblock_call (fl : FLAGS) (x y : Tensor) : M GBlockP Tensor := fun s =>
  match shape x, shape y with
  | [n; c; hh; ww], [m] =>
      if (c =? scaled fl (gb_in s)) && (m =? n)
      then (Ok (full [n; scaled fl (gb_out s); twice (gb_up s) hh; twice (gb_up s) ww]
                  (IZR (gb_weight s)) (device x)), s)
      else (Raise RuntimeError, s)
  | _, _ => (Raise RuntimeError, s)
  end.

#[export] Instance toy_modules : Modules := {|
  LinearP := Z;
  Linear_new := fun _ _ => fresh;
  Linear_xavier_uniform_ := fun _ => fresh;
  Conv2dP := Z;
  Conv2d_new := fun _ _ _ _ _ => fresh;
  Conv2d_xavier_uniform_ := fun _ => fresh;
  BatchNorm2d := Z * nat;
  BatchNorm2d_new := fun nf => (nf, 0);
  BatchNorm2d_call := toy_bn_call;
  SlimmableLinear_call := toy_linear_call;
  SlimmableConv2d_call := toy_conv_call;
  SNLinear := Counted;
  SNLinear_new := fun i o => w ← fresh; mret (mkCounted i o false w 0);
  SNLinear_call := toy_sn_linear_call;
  SNLinear_xavier_uniform_ := fun s =>
    w ← fresh; mret (mkCounted (c_in s) (c_out s) (c_down s) w (c_calls s));
  SNEmbedding := Counted;
  SNEmbedding_new := fun n d => w ← fresh; mret (mkCounted n d false w 0);
  SNEmbedding_call := toy_embedding_call;
  SNEmbedding_xavier_uniform_ := fun s =>
    w ← fresh; mret (mkCounted (c_in s) (c_out s) (c_down s) w (c_calls s));
  DBlockOptimized := Counted;
  DBlockOptimized_new := fun i o => w ← fresh; mret (mkCounted i o true w 0);
  DBlockOptimized_call := toy_dblock_call;
  DBlock := Counted;
  DBlock_new := fun i o down => w ← fresh; mret (mkCounted i o down w 0);
  DBlock_call := toy_dblock_call;
  SlimmableGBlock := GBlockP;
  SlimmableGBlock_new := fun _ i o up nc => w ← fresh; mret (mkGBlockP i o up nc w);
  SlimmableGBlock_call := toy_gblock_call
|}.

(** The usual switch: widths 0.25, 0.5, 0.75 and 1. *)
Definition flags (w : Q) : FLAGS := mkFLAGS w [1 # 4; 1 # 2; 3 # 4; 1]%Q.

(** One image of 4 by 4 pixels and its label. *)
Definition x_img : Tensor := full [1; 3; 4; 4] 1%R cpu.
Definition y_lbl : Tensor := full [1] 0%R cpu.

(** The seed the examples start from. *)
Definition seed : Rng := 0%Z.

(** The module a constructor returned. *)
Definition built {A} (r : result A * Rng) (default : A) : A :=
  match r.1 with Ok a => a | Raise _ => default end.

(** Discriminators with 10 classes and [ndf = 2], for the usual
    switch. *)
Definition toy_D (share : Z) : SlimmableCGANPDDiscriminator32 :=
  built (D_init (flags 1) 10 2 share seed) (mkD 0 0 0 [] [] [] [] [] []).

(** Generators with 10 classes and [nz = 3] at width 0.5:
    [ngf = 4] from a 2 by 2 bottom, and [ngf = 6] from a 4 by 4 one. *)
Definition no_G : SlimmableCGANPDGenerator32 :=
  mkG 0 0 0 0 0 false (mkSlimmableLinear [] [] 0%Z)
    (mkGBlockP 0 0 false 0 0) (mkGBlockP 0 0 false 0 0) (mkGBlockP 0 0 false 0 0)
    (mkSwitchableBatchNorm2d [] []) (mkSlimmableConv2d [] [] 0 0 0 0%Z).
Definition toy_G : SlimmableCGANPDGenerator32 :=
  built (G_init (flags (1 # 2)) 10 3 4 2 0 false seed) no_G.
Definition toy_G6 : SlimmableCGANPDGenerator32 :=
  built (G_init (flags (1 # 4)) 10 3 6 4 0 false seed) no_G.

(** Two noise vectors and their labels. *)
Definition x_noise : Tensor := full [2; 3] 1%R cpu.
Definition y_two : Tensor := full [2] 0%R cpu.

End Toy.

Import Toy.

(* ===================================================================== *)
(** * Properties *)
(* ===================================================================== *)

(** ** Python values *)

Lemma int_inject_Z (q : Q) (z : Z) : (q == inject_Z z)%Q -> int q = z.
Proof.
  unfold Qeq, int. cbn. intros Hq.
  replace (Qnum q) with (z * Z.pos (Qden q))%Z by lia.
  apply Z.quot_mul. lia.
Qed.

Lemma int_quarter (w : Q) (i : nat) :
  (w == inject_Z (Z.of_nat (S i)) / 4)%Q -> int (w / (1 # 4)) = Z.of_nat (S i).
Proof.
  intros Hw. apply int_inject_Z. rewrite Hw. field.
Qed.

Lemma abs_index_nonneg (len : nat) (i : Z) :
  (0 <= i < Z.of_nat len)%Z -> abs_index len i = Ok (Z.to_nat i).
Proof.
  intros Hi. unfold abs_index.
  destruct (Z.ltb_spec i (- Z.of_nat len)); [lia|].
  destruct (Z.leb_spec (Z.of_nat len) i); [lia|]. cbn.
  destruct (Z.ltb_spec i 0); [lia|]. done.
Qed.

Lemma abs_index_last (len : nat) :
  0 < len -> abs_index len (-1) = Ok (len - 1).
Proof.
  intros Hlen. unfold abs_index.
  destruct (Z.ltb_spec (-1) (- Z.of_nat len)); [lia|].
  destruct (Z.leb_spec (Z.of_nat len) (-1)); [lia|]. cbn.
  f_equal. lia.
Qed.

(** ** The state and error monad *)

Lemma bind_cong {S A B} (m m' : M S A) (f f' : A -> M S B) (s : S) :
  m s = m' s ->
  (forall a s', m' s = (Ok a, s') -> f a s' = f' a s') ->
  (m ≫= f) s = (m' ≫= f') s.
Proof.
  unfold mbind, M_bind. intros -> Hf.
  destruct (m' s) as [[a|e] s']; eauto.
Qed.

Lemma bind_mret_r {S A} (m : M S A) (s : S) : (m ≫= mret) s = m s.
Proof. unfold mbind, M_bind. by destruct (m s) as [[a|e] s']. Qed.

Lemma call_item_at {A X} (call : X -> M A Tensor) (i : Z) (k : nat) (a : X)
    (ms : list A) :
  abs_index (length ms) i = Ok k -> call_item call i a ms = call_at call k a ms.
Proof. unfold call_item, call_at. by intros ->. Qed.

Lemma call_at_length {A X} (call : X -> M A Tensor) (k : nat) (a : X)
    (ms ms' : list A) (r : result Tensor) :
  call_at call k a ms = (r, ms') -> length ms' = length ms.
Proof.
  unfold call_at. destruct (ms !! k) as [m|]; [|by intros [= _ <-]].
  destruct (call a m) as [r' m']. intros [= _ <-]. apply length_insert.
Qed.

(** A call through a list changes no other element of the list. *)
Lemma call_at_frame {A X} (call : X -> M A Tensor) (k j : nat) (a : X)
    (ms ms' : list A) (r : result Tensor) :
  call_at call k a ms = (r, ms') -> j ≠ k -> ms' !! j = ms !! j.
Proof.
  unfold call_at. destruct (ms !! k) as [m|]; [|by intros [= _ <-]].
  destruct (call a m) as [r' m']. intros [= _ <-] Hj.
  by apply list_lookup_insert_ne.
Qed.

Lemma bind_attr {S A B} (g : S -> A) (f : A -> M S B) (s : S) :
  (attr g ≫= f) s = f (g s) s.
Proof. done. Qed.

Lemma bind_mret_l {S A B} (a : A) (f : A -> M S B) (s : S) :
  (mret a ≫= f) s = f a s.
Proof. done. Qed.

Lemma bind_lift {S A B} (r : result A) (f : A -> M S B) (s : S) :
  (lift r ≫= f) s = match r with Ok a => f a s | Raise e => (Raise e, s) end.
Proof. by destruct r. Qed.

Lemma zoom_inv {S T A} (get : S -> T) (set : T -> S -> S) (m : M T A)
    (s s' : S) (r : result A) :
  zoom get set m s = (r, s') -> exists t, m (get s) = (r, t) /\ s' = set t s.
Proof.
  unfold zoom. destruct (m (get s)) as [r' t]. intros [= <- <-]. eauto.
Qed.

Lemma mapM_length {S A B} (f : A -> M S B) (l : list A) (s s' : S) (l' : list B) :
  mapM f l s = (Ok l', s') -> length l' = length l.
Proof.
  revert s s' l'. induction l as [|a l IH]; intros s s' l'; cbn.
  - by intros [= <- _].
  - unfold mbind, M_bind.
    destruct (f a s) as [[b|e] s1]; [|done].
    destruct (mapM f l s1) as [[k|e] s2] eqn:Hk; [|done].
    intros [= <- _]. cbn. f_equal. eauto.
Qed.

(** ** The discriminator: routing *)

Section Discriminator.
Context `{Modules}.

(** [forward] resolves six Python indices and then runs through the
    positions they denote. *)
Lemma D_forward_routes (fl : FLAGS) (x : Tensor) (y : option Tensor)
    (d : SlimmableCGANPDDiscriminator32) (k1 k2 k3 k4 k5 ky : nat) :
  abs_index (length (block1s d))
    (if (n_share d >? 0)%Z then -1 else idx_of fl) = Ok k1 ->
  abs_index (length (block2s d))
    (if (n_share d >? 1)%Z then -1 else idx_of fl) = Ok k2 ->
  abs_index (length (block3s d))
    (if (n_share d >? 2)%Z then -1 else idx_of fl) = Ok k3 ->
  abs_index (length (block4s d))
    (if (n_share d >? 3)%Z then -1 else idx_of fl) = Ok k4 ->
  abs_index (length (l5s d))
    (if (n_share d =? -1)%Z then -1 else idx_of fl) = Ok k5 ->
  abs_index (length (l_ys d)) (idx_of fl) = Ok ky ->
  D_forward fl x y d = D_forward_at k1 k2 k3 k4 k5 ky x y d.
Proof.
  intros H1 H2 H3 H4 H5 Hy.
  unfold D_forward, D_forward_at. fold (idx_of fl).
  rewrite bind_attr.
  apply bind_cong.
  { unfold zoom. by rewrite (call_item_at _ _ k1). }
  intros h1 s1 (t1 & _ & ->)%zoom_inv.
  rewrite bind_attr. cbn [n_share set_block1s].
  apply bind_cong.
  { unfold zoom. cbn [block2s set_block1s]. by rewrite (call_item_at _ _ k2). }
  intros h2 s2 (t2 & _ & ->)%zoom_inv.
  rewrite bind_attr. cbn [n_share set_block1s set_block2s].
  apply bind_cong.
  { unfold zoom. cbn [block3s set_block1s set_block2s].
    by rewrite (call_item_at _ _ k3). }
  intros h3 s3 (t3 & _ & ->)%zoom_inv.
  rewrite bind_attr. cbn [n_share set_block1s set_block2s set_block3s].
  apply bind_cong.
  { unfold zoom. cbn [block4s set_block1s set_block2s set_block3s].
    by rewrite (call_item_at _ _ k4). }
  intros h4 s4 (t4 & _ & ->)%zoom_inv.
  rewrite bind_mret_l.
  rewrite !bind_lift.
  destruct (sum_dim23 (relu_ h4)) as [h5|e]; [|done].
  rewrite bind_attr.
  apply bind_cong.
  { unfold zoom. cbn [n_share l5s set_block1s set_block2s set_block3s set_block4s].
    by rewrite (call_item_at _ _ k5). }
  intros o s6 (t6 & _ & ->)%zoom_inv.
  apply bind_cong.
  { unfold zoom. cbn [l_ys set_block1s set_block2s set_block3s set_block4s set_l5s].
    by rewrite (call_item_at _ _ ky). }
  intros w_y s7 _.
  apply bind_cong; [done|]. intros p s8 _.
  apply bind_cong; [done|]. intros s s9 _.
  apply bind_mret_r.
Qed.

Lemma D_layers_inv (wl : list Q) (d d' : SlimmableCGANPDDiscriminator32)
    (g g' : Rng) (n : nat) :
  D_layers wl d g = (Ok d', g') -> branches d n ->
  n_share d' = n_share d /\ branches d' (n + length wl).
Proof.
  revert d g n. induction wl as [|w wl IH]; intros d g n; cbn [D_layers].
  - intros [= <- _] Hd. split; [done|]. by rewrite Nat.add_0_r.
  - unfold mbind, M_bind. intros Hd (?&?&?&?&?&?).
    repeat (case_match; try discriminate).
    apply (IH _ _ (S n)) in Hd as [Hs Hb].
    + cbn in Hs. split; [done|]. cbn [length]. by rewrite <-Nat.add_succ_comm.
    + unfold branches. cbn. rewrite !length_app. cbn. lia.
Qed.

Lemma D_init_inv (fl : FLAGS) (num_classes ndf0 share : Z) (g : Rng)
    (d : SlimmableCGANPDDiscriminator32) :
  value (D_init fl num_classes ndf0 share) g = Ok d ->
  (-1 <= share <= 4)%Z /\ n_share d = share /\
  branches d (length (width_mult_list fl)).
Proof.
  unfold value, D_init.
  destruct (Z.leb_spec (-1) share), (Z.leb_spec share 4); cbn [andb negb]; try done.
  unfold mbind, M_bind.
  destruct (D_layers _ _ g) as [[d1|e] g1] eqn:Hd1; [|done].
  destruct (mapM (M := M Rng) SNLinear_xavier_uniform_ (l5s d1) g1)
    as [[l5s'|e] g2] eqn:H5; [|done].
  destruct (mapM (M := M Rng) SNEmbedding_xavier_uniform_ (l_ys d1) g2)
    as [[l_ys'|e] g3] eqn:Hy; [|done].
  cbn. intros [= <-].
  apply (D_layers_inv _ _ _ _ _ 0) in Hd1 as (Hs & ?&?&?&?&?&?); [|done].
  apply mapM_length in H5, Hy.
  split; [lia|]. split; [done|].
  unfold branches. cbn. lia.
Qed.



(** C1, as amended. For a discriminator built with [n_share = 0] (the
    default) over width multipliers 0.25, 0.5, 0.75, ... in this order,
    and for every multiplier [w] of that list, [forward] under
    [FLAGS.width_mult = w] routes through the branch at index
    [int(w / 0.25) - 1], the position of [w] in the list, of each of
    [block1s] .. [block4s], [l5s] and [l_ys]. *)
Theorem C1_unshared_routes_by_width (fl : FLAGS) (num_classes ndf0 : Z)
    (g : Rng) (d : SlimmableCGANPDDiscriminator32) (i : nat) (w : Q)
    (x : Tensor) (y : option Tensor) :
  quarters (width_mult_list fl) ->
  value (D_init fl num_classes ndf0 0) g = Ok d ->
  width_mult_list fl !! i = Some w ->
  idx_of (set_width_mult w fl) = Z.of_nat i /\
  D_forward (set_width_mult w fl) x y d = D_forward_at i i i i i i x y d.
Proof.
  intros Hq Hd Hw.
  assert (Hi : idx_of (set_width_mult w fl) = Z.of_nat i).
  { unfold idx_of. cbn. rewrite (int_quarter w i) by auto. lia. }
  split; [done|].
  apply D_init_inv in Hd as (_ & Hs & H1 & H2 & H3 & H4 & H5 & Hy).
  apply lookup_lt_Some in Hw.
  assert (Ha : abs_index (length (width_mult_list fl)) (Z.of_nat i) = Ok i).
  { rewrite abs_index_nonneg by lia. by rewrite Nat2Z.id. }
  apply D_forward_routes;
    rewrite ?Hs, ?Hi, ?H1, ?H2, ?H3, ?H4, ?H5, ?Hy; cbn; exact Ha.
Qed.

(** C8. A discriminator that its constructor accepted has
    [-1 <= n_share <= 4], and [forward] at a width index [idx] within
    the lists routes as follows: block k (k = 1..4) through the last
    branch if [n_share > k - 1] and through branch [idx] otherwise;
    [l5s] through the last branch if [n_share = -1] and through branch
    [idx] otherwise; [l_ys] through branch [idx] in every case. *)
Theorem C8_routing_by_n_share (fl fl' : FLAGS) (num_classes ndf0 share : Z)
    (g : Rng) (d : SlimmableCGANPDDiscriminator32)
    (x : Tensor) (y : option Tensor) :
  value (D_init fl num_classes ndf0 share) g = Ok d ->
  (0 <= idx_of fl' < Z.of_nat (length (width_mult_list fl)))%Z ->
  let last := length (width_mult_list fl) - 1 in
  let idx := Z.to_nat (idx_of fl') in
  (-1 <= share <= 4)%Z /\
  D_forward fl' x y d =
    D_forward_at
      (if (share >? 0)%Z then last else idx)
      (if (share >? 1)%Z then last else idx)
      (if (share >? 2)%Z then last else idx)
      (if (share >? 3)%Z then last else idx)
      (if (share =? -1)%Z then last else idx)
      idx x y d.
Proof.
  intros Hd Hi last idx.
  apply D_init_inv in Hd as (Hr & Hs & H1 & H2 & H3 & H4 & H5 & Hy).
  split; [done|].
  assert (Hlast : abs_index (length (width_mult_list fl)) (-1) = Ok last).
  { apply abs_index_last. lia. }
  assert (Hidx : abs_index (length (width_mult_list fl)) (idx_of fl') = Ok idx).
  { by apply abs_index_nonneg. }
  apply D_forward_routes;
    rewrite ?Hs, ?H1, ?H2, ?H3, ?H4, ?H5, ?Hy; try done; by case_match.
Qed.

End Discriminator.

Lemma quarters_flags (w : Q) : quarters (width_mult_list (flags w)).
Proof.
  intros i q. cbn.
  destruct i as [|[|[|[|i]]]]; cbn; intros [= <-]; reflexivity.
Qed.

Lemma built_Ok {A} (r : result A * Rng) (default : A) :
  returns r.1 = true -> r.1 = Ok (built r default).
Proof. unfold built. by destruct r.1. Qed.

Lemma toy_D_built (share : Z) :
  returns (value (D_init (flags 1) 10 2 share) seed) = true ->
  value (D_init (flags 1) 10 2 share) seed = Ok (toy_D share).
Proof. apply built_Ok. Qed.

Lemma C1_unshared_routes_by_width_witness :
  value (D_init (flags 1) 10 2 0) seed = Ok (toy_D 0) /\
  D_forward (set_width_mult (1 # 2) (flags 1)) x_img (Some y_lbl) (toy_D 0)
  = D_forward_at 1 1 1 1 1 1 x_img (Some y_lbl) (toy_D 0).
Proof.
  assert (Hd : value (D_init (flags 1) 10 2 0) seed = Ok (toy_D 0)).
  { apply toy_D_built. vm_compute. reflexivity. }
  split; [exact Hd|].
  exact (proj2 (C1_unshared_routes_by_width (flags 1) 10 2 seed (toy_D 0) 1 (1 # 2)
                  x_img (Some y_lbl) (quarters_flags 1) Hd eq_refl)).
Defined.

Lemma C8_routing_by_n_share_witness :
  value (D_init (flags 1) 10 2 2) seed = Ok (toy_D 2) /\
  D_forward (flags (1 # 2)) x_img (Some y_lbl) (toy_D 2)
  = D_forward_at 3 3 1 1 1 1 x_img (Some y_lbl) (toy_D 2).
Proof.
  assert (Hd : value (D_init (flags 1) 10 2 2) seed = Ok (toy_D 2)).
  { apply toy_D_built. vm_compute. reflexivity. }
  assert (Hi : (0 <= idx_of (flags (1 # 2)) < Z.of_nat 4)%Z).
  { vm_compute. split; [discriminate | reflexivity]. }
  split; [exact Hd|].
  exact (proj2 (C8_routing_by_n_share (flags 1) (flags (1 # 2)) 10 2 2 seed (toy_D 2)
                  x_img (Some y_lbl) Hd Hi)).
Defined.

(** C1, as stated, fails when blocks are shared: with [n_share = 1] and
    width 0.25, [idx] is 0 but [block1s] is entered at its last branch,
    index 3. *)
Lemma C1_counterexample :
  value (D_init (flags 1) 10 2 1) seed = Ok (toy_D 1) /\
  idx_of (flags (1 # 4)) = 0%Z /\
  D_forward (flags (1 # 4)) x_img (Some y_lbl) (toy_D 1)
    = D_forward_at 3 0 0 0 0 0 x_img (Some y_lbl) (toy_D 1) /\
  D_forward (flags (1 # 4)) x_img (Some y_lbl) (toy_D 1)
    <> D_forward_at 0 0 0 0 0 0 x_img (Some y_lbl) (toy_D 1).
Proof.
  split; [apply toy_D_built; vm_compute; reflexivity|].
  split; [vm_compute; reflexivity|].
  split.
  - apply D_forward_routes; vm_compute; reflexivity.
  - intros Heq. apply (f_equal (fun p => block1s p.2)) in Heq.
    vm_compute in Heq. discriminate.
Qed.

Lemma bind_both {S A B} (P : result B -> result B -> Prop) (m : M S A)
    (f f' : A -> M S B) (s : S) :
  (forall e, P (Raise e) (Raise e)) ->
  (forall a s', m s = (Ok a, s') -> P (f a s').1 (f' a s').1) ->
  P ((m ≫= f) s).1 ((m ≫= f') s).1.
Proof.
  unfold mbind, M_bind. intros He Hf.
  destruct (m s) as [[a|e] s']; eauto.
Qed.

Lemma bind_value {S A B} (m : M S A) (f : A -> M S B) (s : S) :
  ((m ≫= f) s).1
  = match m s with (Ok a, s') => (f a s').1 | (Raise e, _) => Raise e end.
Proof. unfold mbind, M_bind. by destruct (m s) as [[a|e] s']. Qed.

(** ** The discriminator: dependence on the width switch *)

Section Switch.
Context `{Modules}.


(** The embedding lookup on [None]: unless the index is out of range, a
    [TypeError]. *)
Lemma call_item_None (i : Z) (ms : list SNEmbedding) :
  (call_item SNEmbedding_call_opt i None ms).1 = Raise TypeError \/
  exists e, (call_item SNEmbedding_call_opt i None ms).1 = Raise e /\
    forall y, (call_item SNEmbedding_call_opt i (Some y) ms).1 = Raise e.
Proof.
  unfold call_item. destruct (abs_index _ i) as [k|e]; [|right; eauto].
  destruct (ms !! k) as [m|]; [|right; eauto].
  by left.
Qed.

(** [forward] on [None] and on a tensor of labels, side by side. *)
Lemma D_forward_None (fl : FLAGS) (x y : Tensor)
    (d : SlimmableCGANPDDiscriminator32) :
  (exists e, value (D_forward fl x None) d = Raise e) /\
  (forall out, value (D_forward fl x (Some y)) d = Ok out ->
     value (D_forward fl x None) d = Raise TypeError).
Proof.
  unfold value, D_forward. fold (idx_of fl).
  set (P := fun r r' : result Tensor =>
    (exists e, r = Raise e) /\ (forall out, r' = Ok out -> r = Raise TypeError)).
  assert (He : forall e, P (Raise e) (Raise e)) by (intros e; split; eauto; done).
  match goal with |- (exists e, ?a = _) /\ (forall out, ?b = _ -> _) =>
    change (P a b) end.
  do 12 (apply (bind_both P); [exact He|]; intros ? ? _).
  rewrite !bind_value. unfold zoom.
  match goal with |- context [call_item _ ?i None ?ms] =>
    destruct (call_item_None i ms) as [Hn | (e & Hn & Hs)]; [|specialize (Hs y)];
    destruct (call_item SNEmbedding_call_opt i None ms) as [r0 t0];
    destruct (call_item SNEmbedding_call_opt i (Some y) ms) as [r1 t1]
  end; cbn in *; subst; split; eauto; done.
Qed.

(** C9, discriminator half. [forward] called with [y = None], its
    declared default, raises whatever the input, the width and the
    stored state; and wherever the same call with a tensor of labels
    returns logits, the exception is the [TypeError] of the embedding
    lookup [l_ys[idx](None)]. *)
Lemma D_forward_None_raises (fl : FLAGS) (x : Tensor)
    (d : SlimmableCGANPDDiscriminator32) :
  (exists e, value (D_forward fl x None) d = Raise e) /\
  (forall y out, value (D_forward fl x (Some y)) d = Ok out ->
     value (D_forward fl x None) d = Raise TypeError).
Proof.
  split; [apply (D_forward_None fl x x d)|].
  intros y. apply (D_forward_None fl x y d).
Qed.

End Switch.



(** ** Shapes of the tensor operations *)

Lemma bshape_diag (s : list nat) : bshape s s = Some s.
Proof.
  induction s as [|a s IH]; [done|]. cbn. rewrite IH. by rewrite Nat.eqb_refl.
Qed.

Lemma pad_self (s : list nat) : pad (length s `max` length s) s = s.
Proof. unfold pad. by rewrite Nat.max_id, Nat.sub_diag. Qed.

Lemma binop_same_shape (f : R -> R -> R) (a b : Tensor) :
  shape a = shape b -> device a = device b ->
  exists t, binop f a b = Ok t /\ shape t = shape a /\ device t = device a.
Proof.
  intros Hs Hd. unfold binop, broadcast_shapes.
  destruct (decide (device a = device b)); [|done].
  rewrite <-Hs, pad_self, bshape_diag. eauto.
Qed.

Lemma iadd_same_shape (a b : Tensor) :
  shape a = shape b -> device a = device b ->
  exists t, iadd a b = Ok t /\ shape t = shape a /\ device t = device a.
Proof.
  intros Hs Hd. unfold iadd.
  destruct (binop_same_shape Rplus a b Hs Hd) as (t & -> & Ht & Hdt). cbn.
  destruct (decide (shape t = shape a)); [|done]. eauto.
Qed.

Lemma getitem_inv {A} (l : list A) (i : Z) (a : A) :
  getitem l i = Ok a ->
  exists k, abs_index (length l) i = Ok k /\ l !! k = Some a.
Proof.
  unfold getitem. destruct (abs_index (length l) i) as [k|e]; [|done]. cbn.
  destruct (l !! k) as [a'|] eqn:Hk; [|done]. intros [= <-]. eauto.
Qed.

Lemma zoom_call_at_value {S A X} (get : S -> list A) (set : list A -> S -> S)
    (call : X -> M A Tensor) (k : nat) (a : X) (m : A) (s : S) :
  get s !! k = Some m ->
  zoom get set (call_at call k a) s
  = ((call a m).1, set (<[k := (call a m).2]> (get s)) s).
Proof.
  intros Hk. unfold zoom, call_at. rewrite Hk. by destruct (call a m).
Qed.

(** ** The discriminator: projection logits *)

Section Logits.
Context `{Modules}.

Lemma D_selected_inv (fl : FLAGS) (d : SlimmableCGANPDDiscriminator32)
    b1 b2 b3 b4 l5 e :
  D_selected fl d = Ok (b1, b2, b3, b4, l5, e) ->
  exists k1 k2 k3 k4 k5 ky,
    (forall x y, D_forward fl x y d = D_forward_at k1 k2 k3 k4 k5 ky x y d) /\
    block1s d !! k1 = Some b1 /\ block2s d !! k2 = Some b2 /\
    block3s d !! k3 = Some b3 /\ block4s d !! k4 = Some b4 /\
    l5s d !! k5 = Some l5 /\ l_ys d !! ky = Some e.
Proof.
  unfold D_selected.
  destruct (getitem (block1s d) _) as [c1|?] eqn:E1; [|done].
  destruct (getitem (block2s d) _) as [c2|?] eqn:E2; [|done].
  destruct (getitem (block3s d) _) as [c3|?] eqn:E3; [|done].
  destruct (getitem (block4s d) _) as [c4|?] eqn:E4; [|done].
  destruct (getitem (l5s d) _) as [c5|?] eqn:E5; [|done].
  destruct (getitem (l_ys d) _) as [c6|?] eqn:E6; [|done].
  cbn. intros [= -> -> -> -> -> ->].
  apply getitem_inv in E1 as (k1 & ? & ?), E2 as (k2 & ? & ?),
    E3 as (k3 & ? & ?), E4 as (k4 & ? & ?), E5 as (k5 & ? & ?),
    E6 as (ky & ? & ?).
  exists k1, k2, k3, k4, k5, ky. split; [|done].
  intros x y. by apply D_forward_routes.
Qed.

Lemma D_forward_at_value (d : SlimmableCGANPDDiscriminator32)
    (k1 k2 k3 k4 k5 ky : nat) b1 b2 b3 b4 l5 e (x y : Tensor) :
  block1s d !! k1 = Some b1 -> block2s d !! k2 = Some b2 ->
  block3s d !! k3 = Some b3 -> block4s d !! k4 = Some b4 ->
  l5s d !! k5 = Some l5 -> l_ys d !! ky = Some e ->
  value (D_forward_at k1 k2 k3 k4 k5 ky x (Some y)) d
  = projection_logits (D_blocks b1 b2 b3 b4)
      (fun h => value (SNLinear_call h) l5)
      (fun y => value (SNEmbedding_call y) e) x y.
Proof.
  intros H1 H2 H3 H4 H5 Hy.
  unfold value, D_forward_at, projection_logits, D_blocks, value.
  rewrite bind_value, (zoom_call_at_value _ _ _ _ _ b1) by done.
  destruct (DBlockOptimized_call x b1) as [[h1|?] b1']; [|done]. cbn.
  rewrite bind_value, (zoom_call_at_value _ _ _ _ _ b2) by done.
  destruct (DBlock_call h1 b2) as [[h2|?] b2']; [|done]. cbn.
  rewrite bind_value, (zoom_call_at_value _ _ _ _ _ b3) by done.
  destruct (DBlock_call h2 b3) as [[h3|?] b3']; [|done]. cbn.
  rewrite bind_value, (zoom_call_at_value _ _ _ _ _ b4) by done.
  destruct (DBlock_call h3 b4) as [[h4|?] b4']; [|done]. cbn.
  rewrite bind_value. unfold lift at 1.
  destruct (sum_dim23 (relu_ h4)) as [h|?]; [|done]. cbn.
  rewrite bind_value, (zoom_call_at_value _ _ _ _ _ l5) by done.
  destruct (SNLinear_call h l5) as [[o|?] l5']; [|done]. cbn.
  rewrite bind_value, (zoom_call_at_value _ _ _ _ _ e) by done.
  cbn [SNEmbedding_call_opt].
  destruct (SNEmbedding_call y e) as [[w_y|?] e']; [|done]. cbn.
  rewrite bind_value. unfold lift at 1.
  destruct (mul w_y h) as [p|?]; [|done]. cbn.
  rewrite bind_value. unfold lift at 1.
  destruct (sum_dim1_keepdim p) as [s|?]; [|done]. cbn.
  done.
Qed.
End Logits.

Section Logits2.
Context `{Modules}.

End Logits2.

Ltac toy_shape call :=
  let h := fresh "h" in
  let Hh := fresh "Hh" in
  intros h Hh; cbn; unfold call; rewrite Hh; cbn; eauto 10.


(** ** Invariants of a computation *)

Lemma preserves_bind {S A B} (Q : S -> Prop) (m : M S A) (f : A -> M S B) :
  preserves Q m -> (forall a, preserves Q (f a)) -> preserves Q (m ≫= f).
Proof.
  unfold preserves, mbind, M_bind. intros Hm Hf s r s' HQ.
  destruct (m s) as [[a|e] s1] eqn:Hs.
  - intros Hfa. eapply Hf; [|exact Hfa]. eauto.
  - intros [= <- <-]. eauto.
Qed.

Lemma preserves_mret {S A} (Q : S -> Prop) (a : A) : preserves Q (mret a : M S A).
Proof. by intros s r s' HQ [= _ <-]. Qed.

Lemma preserves_lift {S A} (Q : S -> Prop) (r : result A) :
  preserves Q (lift r : M S A).
Proof. by intros s r' s' HQ [= _ <-]. Qed.

Lemma preserves_attr {S A} (Q : S -> Prop) (g : S -> A) : preserves Q (attr g).
Proof. by intros s r' s' HQ [= _ <-]. Qed.

Lemma preserves_zoom {S T A} (Q : S -> Prop) (get : S -> T) (set : T -> S -> S)
    (m : M T A) :
  (forall s r t, Q s -> m (get s) = (r, t) -> Q (set t s)) ->
  preserves Q (zoom get set m).
Proof.
  intros Hset s r s' HQ (t & Hm & ->)%zoom_inv. eauto.
Qed.

Lemma zoom_eq {S T A} (get : S -> T) (set : T -> S -> S) (m : M T A) (s : S) :
  zoom get set m s = ((m (get s)).1, set (m (get s)).2 s).
Proof. unfold zoom. by destruct (m (get s)). Qed.

Lemma bind_step {S A B} (m : M S A) (f : A -> M S B) (s s' : S) (a : A) :
  m s = (Ok a, s') -> (m ≫= f) s = f a s'.
Proof. unfold mbind, M_bind. by intros ->. Qed.

(** ** The generator: what the constructor builds *)

Section Generator.
Context `{Modules}.

Lemma SlimmableLinear_new_lists (ins outs : list Z) (g : Rng) l :
  value (SlimmableLinear_new ins outs) g = Ok l ->
  in_features_list l = ins /\ out_features_list l = outs.
Proof.
  unfold value, SlimmableLinear_new, mbind, M_bind, lift.
  destruct (max_list ins); [|done].
  destruct (max_list outs); [|done].
  destruct (Linear_new _ _ g) as [[p|?] ?]; [|done]. cbn. by intros [= <-].
Qed.

Lemma SlimmableConv2d_new_lists (ins outs : list Z) (k s p : Z) (g : Rng) c :
  value (SlimmableConv2d_new ins outs k s p) g = Ok c ->
  in_channels_list c = ins /\ out_channels_list c = outs /\
  kernel_size c = k /\ stride c = s /\ padding c = p.
Proof.
  unfold value, SlimmableConv2d_new, mbind, M_bind, lift.
  destruct (max_list ins); [|done].
  destruct (max_list outs); [|done].
  destruct (Conv2d_new _ _ _ _ _ g) as [[q|?] ?]; [|done]. cbn. by intros [= <-].
Qed.

(** What [__init__] leaves in the attributes. *)
Lemma G_init_inv (fl : FLAGS) (num_classes nz0 ngf0 bw : Z) (al : Q) (sw : bool)
    (rng : Rng) (g : SlimmableCGANPDGenerator32) :
  value (G_init fl num_classes nz0 ngf0 bw al sw) rng = Ok g ->
  g_num_classes g = num_classes /\ nz g = nz0 /\ ngf g = ngf0 /\
  bottom_width g = bw /\
  in_features_list (l1 g) = map (fun _ => nz0) (width_mult_list fl) /\
  out_features_list (l1 g)
    = map (fun w => int (inject_Z (bw ^ 2 * ngf0) * w)) (width_mult_list fl) /\
  b5 g = SwitchableBatchNorm2d_new
           (map (fun w => int (inject_Z ngf0 * w)) (width_mult_list fl)) /\
  in_channels_list (c5 g) = map (fun w => int (inject_Z ngf0 * w)) (width_mult_list fl) /\
  out_channels_list (c5 g) = map (fun _ => 3%Z) (width_mult_list fl) /\
  kernel_size (c5 g) = 3%Z /\ stride (c5 g) = 1%Z /\ padding (c5 g) = 1%Z.
Proof.
  unfold value, G_init. intros Hg. cbv zeta in Hg.
  rewrite bind_value in Hg.
  destruct (SlimmableLinear_new _ _ rng) as [[l|?] r1] eqn:El; [|done].
  apply (f_equal fst) in El. apply SlimmableLinear_new_lists in El as [Hi Ho].
  rewrite bind_value in Hg.
  destruct (SlimmableGBlock_new fl ngf0 ngf0 true num_classes r1) as [[c2|?] r2]; [|done].
  rewrite bind_value in Hg.
  destruct (SlimmableGBlock_new fl ngf0 ngf0 true num_classes r2) as [[c3|?] r3]; [|done].
  rewrite bind_value in Hg.
  destruct (SlimmableGBlock_new fl ngf0 ngf0 true num_classes r3) as [[c4|?] r4]; [|done].
  cbv zeta in Hg. rewrite bind_value in Hg.
  destruct (SlimmableConv2d_new _ _ 3 1 1 r4) as [[c|?] r5] eqn:Ec; [|done].
  apply (f_equal fst) in Ec.
  apply SlimmableConv2d_new_lists in Ec as (Hci & Hco & Hk & Hs & Hp).
  unfold l1_xavier, c5_xavier, mbind, M_bind in Hg.
  destruct (Linear_xavier_uniform_ (linear l) r5) as [[p|?] r6]; [|done].
  cbn in Hg.
  destruct (Conv2d_xavier_uniform_ (conv c) r6) as [[q|?] r7]; [|done].
  cbn in Hg. injection Hg as <-. cbn. by rewrite Hi, Ho, Hci, Hco, Hk, Hs, Hp.
Qed.


(** ** The generator: the switchable batch normalisation *)

(** A call of the generator touches [b5] only through the call of
    [b5]. *)
Lemma G_forward_b5 (Q : SwitchableBatchNorm2d BatchNorm2d -> Prop)
    (fl : FLAGS) (x : Tensor) (y : option Tensor) :
  (forall h, preserves Q (SwitchableBatchNorm2d_call fl h)) ->
  preserves (fun s => Q (b5 s.1)) (G_forward fl x y).
Proof.
  intros Hb. unfold G_forward, onG, on_rng.
  repeat first
    [ apply preserves_bind; [|intros ?]
    | apply preserves_mret
    | apply preserves_lift
    | apply preserves_attr
    | apply preserves_zoom; intros s r t HQ Hm; cbn; first [exact HQ | by eapply Hb]
    | destruct y ].
Qed.

(** The batch normalisations of the other widths keep their state. *)
Lemma SwitchableBatchNorm2d_call_frame (fl : FLAGS) (h : Tensor)
    (s0 : SwitchableBatchNorm2d BatchNorm2d) :
  preserves
    (fun s => num_features_list s = num_features_list s0 /\
       length (bn s) = length (bn s0) /\
       forall j, index (width_mult_list fl) (width_mult fl) <> Ok j ->
         bn s !! j = bn s0 !! j)
    (SwitchableBatchNorm2d_call fl h).
Proof.
  intros s r s' (Hn & Hl & HQ). unfold SwitchableBatchNorm2d_call.
  destruct (index _ _) as [i|e]; [|by intros [= _ <-]].
  destruct (bn s !! i) as [b|]; [|by intros [= _ <-]].
  destruct (BatchNorm2d_call h b) as [r' b']. intros [= _ <-]. cbn.
  split; [done|]. split; [by rewrite length_insert|].
  intros j Hj. rewrite list_lookup_insert_ne by congruence. by apply HQ.
Qed.


(** ** The generator: the forward computation *)

Lemma G_forward_value (fl : FLAGS) (x y : Tensor)
    (g : SlimmableCGANPDGenerator32) (rng : Rng) :
  value (G_forward fl x (Some y)) (g, rng) = G_composition fl g x y.
Proof.
  unfold value, G_forward, G_composition, value, onG.
  rewrite bind_mret_l.
  rewrite bind_value, zoom_eq. cbn [fst snd l1].
  destruct (SlimmableLinear_call fl x (l1 g)) as [[h1|?] s1]; [|done]. cbn.
  rewrite bind_value. unfold lift at 1.
  destruct (shape0 x) as [n|?]; [|done]. cbn.
  rewrite bind_attr. cbn [fst bottom_width set_l1].
  rewrite bind_value. unfold lift at 1.
  destruct (view_infer1 h1 n (bottom_width g) (bottom_width g)) as [h2|?]; [|done].
  cbn.
  rewrite bind_value, zoom_eq. cbn [fst snd block2 set_l1].
  destruct (SlimmableGBlock_call fl h2 y (block2 g)) as [[h3|?] s2]; [|done]. cbn.
  rewrite bind_value, zoom_eq. cbn [fst snd block3 set_l1 set_block2].
  destruct (SlimmableGBlock_call fl h3 y (block3 g)) as [[h4|?] s3]; [|done]. cbn.
  rewrite bind_value, zoom_eq. cbn [fst snd block4 set_l1 set_block2 set_block3].
  destruct (SlimmableGBlock_call fl h4 y (block4 g)) as [[h5|?] s4]; [|done]. cbn.
  rewrite bind_value, zoom_eq.
  cbn [fst snd b5 set_l1 set_block2 set_block3 set_block4].
  destruct (SwitchableBatchNorm2d_call fl h5 (b5 g)) as [[h6|?] s5]; [|done]. cbn.
  rewrite bind_mret_l, bind_value, zoom_eq.
  cbn [fst snd c5 set_l1 set_block2 set_block3 set_block4 set_b5].
  destruct (SlimmableConv2d_call fl (relu_ h6) (c5 g)) as [[h7|?] s6]; [|done].
  done.
Qed.

(** C5. With a tensor of labels [y], [forward] computes
    [tanh(c5(ReLU(b5(block4(block3(block2(view(l1(x)), y), y), y)))))],
    the view being [(N, -1, bottom_width, bottom_width)], with [y]
    passed to each of the three blocks: its value is that of the
    composition of the layers, each in the state the call finds it in,
    and torch's random generator is not consulted. *)
Theorem C5_generator_composition (fl : FLAGS) (x y : Tensor)
    (g : SlimmableCGANPDGenerator32) (rng : Rng) :
  value (G_forward fl x (Some y)) (g, rng) = G_composition fl g x y /\
  (G_forward fl x (Some y) (g, rng)).2.2 = rng.
Proof.
  split; [apply G_forward_value|].
  assert (Hp : preserves (fun s => s.2 = rng) (G_forward fl x (Some y))).
  { unfold G_forward, onG.
    repeat first
      [ apply preserves_bind; [|intros ?]
      | apply preserves_mret
      | apply preserves_lift
      | apply preserves_attr
      | apply preserves_zoom; intros s r t HQ Hm; exact HQ ]. }
  destruct (G_forward fl x (Some y) (g, rng)) as [r s'] eqn:Hf.
  by eapply Hp in Hf.
Qed.

(** ** The default [y = None] *)

Lemma randint_spec {GS : GeneratorSpec _} (high : Z) (n : nat) (dev : Device)
    (rng : Rng) :
  (0 < high)%Z ->
  exists y rng', randint 0 high n dev rng = (Ok y, rng') /\
    shape y = [n] /\ length (data y) = n /\ device y = dev /\
    labels_below high y.
Proof.
  intros Hh. unfold randint.
  destruct (Z.ltb_spec 0 high); [|lia].
  pose proof (draw_length rng 0 high n) as Hl.
  pose proof (draw_range rng 0 high n) as Hr.
  destruct (draw rng 0 high n) as [zs rng']. cbn in Hl, Hr.
  eexists _, _. split; [reflexivity|]. cbn.
  split; [done|]. split; [by rewrite length_map|]. split; [done|].
  unfold labels_below. cbn. apply Forall_fmap, Forall_forall.
  intros z Hz. cbn. exists z. split; [done|]. by apply Hr.
Qed.

(** The generator on [None]: the labels are drawn, and the call goes on
    as on these labels. *)
Lemma G_forward_None {GS : GeneratorSpec _} (fl : FLAGS) (x : Tensor)
    (g : SlimmableCGANPDGenerator32) (rng : Rng) (n : nat) :
  shape0 x = Ok n -> (0 < g_num_classes g)%Z ->
  exists y rng',
    randint 0 (g_num_classes g) n (device x) rng = (Ok y, rng') /\
    shape y = [n] /\ device y = device x /\
    labels_below (g_num_classes g) y /\
    G_forward fl x None (g, rng) = G_forward fl x (Some y) (g, rng').
Proof.
  intros Hn Hc.
  destruct (randint_spec (g_num_classes g) n (device x) rng Hc)
    as (y & rng' & Hr & Hs & _ & Hd & Hl).
  exists y, rng'. repeat (split; [done|]).
  unfold G_forward.
  rewrite (bind_step _ _ (g, rng) (g, rng') y).
  - by rewrite bind_mret_l.
  - rewrite bind_attr, bind_lift, Hn. unfold on_rng. rewrite zoom_eq. cbn.
    by rewrite Hr.
Qed.

End Generator.


(** ** Arithmetic of the feature counts *)

Lemma int_Qeq (q q' : Q) : (q == q')%Q -> int q = int q'.
Proof.
  unfold Qeq, int. intros Hq.
  rewrite <-(Z.quot_mul_cancel_r (Qnum q) (Z.pos (Qden q)) (Z.pos (Qden q'))) by lia.
  rewrite <-(Z.quot_mul_cancel_r (Qnum q') (Z.pos (Qden q')) (Z.pos (Qden q))) by lia.
  rewrite Hq. f_equal. lia.
Qed.

Lemma div_scale (B A d : Z) :
  (0 < B)%Z -> (0 <= A)%Z -> (0 < d)%Z ->
  (B | (B * A) / d)%Z -> ((B * A) / d = B * (A / d))%Z.
Proof.
  intros HB HA Hd Hdiv.
  pose proof (Z.div_mod A d ltac:(lia)) as HAd.
  pose proof (Z.mod_pos_bound A d Hd) as Hr.
  set (k := (A / d)%Z) in *. set (r := (A mod d)%Z) in *.
  assert (HBA : ((B * A) / d = B * k + (B * r) / d)%Z).
  { replace (B * A)%Z with ((B * k) * d + B * r)%Z by lia.
    rewrite Z.div_add_l by lia. done. }
  rewrite HBA in *.
  assert (Ht : (0 <= (B * r) / d < B)%Z).
  { split; [apply Z.div_pos; nia|]. apply Z.div_lt_upper_bound; nia. }
  assert (Hdt : (B | (B * r) / d)%Z).
  { destruct Hdiv as [z Hz]. exists (z - k)%Z. lia. }
  destruct Hdt as [z Hz]. assert (z = 0%Z) by nia. lia.
Qed.

(** When [int(B * c * w)] is a multiple of [B], it is [B * int(c * w)]. *)
Lemma int_scale (B c : Z) (w : Q) :
  (0 < B)%Z -> (0 <= c)%Z -> (0 <= w)%Q ->
  (B | int (inject_Z (B * c) * w))%Z ->
  int (inject_Z (B * c) * w) = (B * int (inject_Z c * w))%Z.
Proof.
  unfold int, Qle. destruct w as [a d]. cbn. intros HB Hc Ha.
  rewrite !Z.quot_div_nonneg by nia.
  replace (B * c * a)%Z with (B * (c * a))%Z by lia.
  apply div_scale; nia.
Qed.

Lemma index_lookup (l : list Q) (q : Q) (i : nat) :
  index l q = Ok i -> exists q', l !! i = Some q' /\ (q' == q)%Q.
Proof.
  revert i. induction l as [|a l IH]; intros i; cbn; [done|].
  destruct (Qeq_bool a q) eqn:Ha.
  - intros [= <-]. exists a. split; [done|]. by apply Qeq_bool_iff.
  - destruct (index l q) as [k|]; [|done]. intros [= <-]. cbn. eauto.
Qed.

(** ** The range of [tanh] *)

Lemma tanh_range (r : R) : (-1 <= Rtrigo_def.tanh r <= 1)%R.
Proof.
  unfold Rtrigo_def.tanh, sinh, cosh.
  pose proof (exp_pos r) as Ha. pose proof (exp_pos (- r)) as Hb.
  set (a := exp r) in *. set (b := exp (- r)) in *.
  set (s := ((a - b) / 2)%R). set (c := ((a + b) / 2)%R).
  assert (Hc : (0 < c)%R) by (unfold c; lra).
  assert (Hs : (- c <= s <= c)%R) by (unfold s, c; lra).
  pose proof (Rinv_0_lt_compat _ Hc) as Hi.
  assert (He : (c * / c = 1)%R) by (apply Rinv_r; lra).
  unfold Rdiv. split.
  - replace (-1)%R with (- c * / c)%R by lra.
    apply Rmult_le_compat_r; lra.
  - rewrite <-He. apply Rmult_le_compat_r; lra.
Qed.

Lemma tanh_in_unit_range (t : Tensor) : in_unit_range (tanh t).
Proof.
  unfold in_unit_range, tanh, map_data. cbn.
  apply Forall_fmap, Forall_forall. intros r _. apply tanh_range.
Qed.

Lemma view_shape (h : Tensor) (n c : nat) (bw : Z) :
  0 < n -> (0 < bw)%Z ->
  shape h = [n; Z.to_nat (bw ^ 2 * Z.of_nat c)] ->
  exists t, view_infer1 h n bw bw = Ok t /\
    shape t = [n; c; Z.to_nat bw; Z.to_nat bw] /\ device t = device h.
Proof.
  intros Hn Hbw Hs. unfold view_infer1. rewrite Hs.
  destruct (Z.ltb_spec bw 0); [lia|]. cbn [orb].
  set (b := Z.to_nat bw).
  assert (Hb : 0 < b) by (unfold b; lia).
  assert (Hf : Z.to_nat (bw ^ 2 * Z.of_nat c) = c * (b * b)).
  { unfold b. nia. }
  rewrite Hf. cbn [numel foldr].
  assert (Hk : n * b * b <> 0) by nia.
  destruct (Nat.eqb_spec (n * b * b) 0); [done|].
  replace (n * (c * (b * b) * 1)) with (c * (n * b * b)) by lia.
  rewrite Nat.Div0.mod_mul, Nat.div_mul by done. cbn. eauto.
Qed.

(** ** The generator: shape and range of the output *)

Lemma channels_nonneg (fl : FLAGS) (c : Z) :
  (0 <= c)%Z -> (0 <= width_mult fl)%Q -> (0 <= channels fl c)%Z.
Proof.
  unfold channels, int, Qle. destruct (width_mult fl) as [a d]. cbn.
  intros Hc Ha. apply Z.quot_pos; nia.
Qed.

Section Output.
Context `{Modules}.

(** The switchable batch normalisation, fresh from its constructor,
    keeps the shape of feature maps of the active width. *)
Lemma SwitchableBatchNorm2d_shape (fl : FLAGS) (c : Z) (i n hh ww : nat) :
  index (width_mult_list fl) (width_mult fl) = Ok i ->
  (forall nf, maps_shape BatchNorm2d_call (BatchNorm2d_new nf)
     [n; Z.to_nat nf; hh; ww] [n; Z.to_nat nf; hh; ww]) ->
  maps_shape (SwitchableBatchNorm2d_call fl)
    (SwitchableBatchNorm2d_new
       (map (fun w => int (inject_Z c * w)) (width_mult_list fl)))
    [n; Z.to_nat (channels fl c); hh; ww] [n; Z.to_nat (channels fl c); hh; ww].
Proof.
  intros Hi Hbn h Hh. unfold SwitchableBatchNorm2d_call. rewrite Hi.
  apply index_lookup in Hi as (w' & Hw & Hq). cbn.
  rewrite !list_lookup_fmap, Hw. cbn.
  assert (Hc : int (inject_Z c * w') = channels fl c).
  { unfold channels. apply int_Qeq. by rewrite Hq. }
  rewrite Hc.
  destruct (Hbn (channels fl c) h Hh) as (t & s' & -> & Ht & Hd). eauto.
Qed.

Lemma G_output_labelled (fl : FLAGS) (num_classes nz0 ngf0 bw : Z) (al : Q)
    (sw : bool) (rng0 rng : Rng) (g : SlimmableCGANPDGenerator32)
    (x y : Tensor) (n i : nat) :
  value (G_init fl num_classes nz0 ngf0 bw al sw) rng0 = Ok g ->
  index (width_mult_list fl) (width_mult fl) = Ok i ->
  shape x = [n; Z.to_nat nz0] -> shape y = [n] -> device y = device x ->
  0 < n -> (0 < bw)%Z -> (0 <= ngf0)%Z -> (0 <= width_mult fl)%Q ->
  (bw ^ 2 | l1_features fl bw ngf0)%Z ->
  maps_shape (SlimmableLinear_call fl) (l1 g)
    [n; Z.to_nat nz0] [n; Z.to_nat (l1_features fl bw ngf0)] ->
  upsamples fl (block2 g) n (Z.to_nat (channels fl ngf0)) ->
  upsamples fl (block3 g) n (Z.to_nat (channels fl ngf0)) ->
  upsamples fl (block4 g) n (Z.to_nat (channels fl ngf0)) ->
  (forall nf hh ww, maps_shape BatchNorm2d_call (BatchNorm2d_new nf)
     [n; Z.to_nat nf; hh; ww] [n; Z.to_nat nf; hh; ww]) ->
  (forall hh ww, maps_shape (SlimmableConv2d_call fl) (c5 g)
     [n; Z.to_nat (channels fl ngf0); hh; ww] [n; 3; hh; ww]) ->
  exists out, value (G_forward fl x (Some y)) (g, rng) = Ok out /\
    shape out = [n; 3; 8 * Z.to_nat bw; 8 * Z.to_nat bw] /\
    in_unit_range out.
Proof.
  intros Hg Hi Hx Hy Hdy Hn Hbw Hngf Hw Hdiv Hl1 Hb2 Hb3 Hb4 Hbn Hc5.
  apply G_init_inv in Hg as (_ & _ & _ & Hgbw & _ & _ & Hb5 & _).
  rewrite G_forward_value. unfold G_composition, value.
  destruct (Hl1 x Hx) as (h1 & s1 & -> & Hh1 & Hd1). cbn.
  unfold shape0. rewrite Hx. cbn. rewrite Hgbw.
  pose proof (channels_nonneg fl ngf0 Hngf Hw) as Hcn.
  set (c := Z.to_nat (channels fl ngf0)) in *.
  assert (Hf : l1_features fl bw ngf0 = (bw ^ 2 * Z.of_nat c)%Z).
  { unfold l1_features, c in *. rewrite Z2Nat.id by done.
    apply int_scale; try done. nia. }
  rewrite Hf in Hh1.
  destruct (view_shape h1 n c bw Hn Hbw Hh1) as (h2 & -> & Hh2 & Hd2). cbn.
  set (b := Z.to_nat bw) in *.
  destruct (Hb2 h2 y b b Hh2 Hy) as (h3 & s2 & -> & Hh3 & Hd3); [congruence|]. cbn.
  destruct (Hb3 h3 y _ _ Hh3 Hy) as (h4 & s3 & -> & Hh4 & Hd4); [congruence|]. cbn.
  destruct (Hb4 h4 y _ _ Hh4 Hy) as (h5 & s4 & -> & Hh5 & Hd5); [congruence|]. cbn.
  rewrite Hb5.
  destruct (SwitchableBatchNorm2d_shape fl ngf0 i n _ _ Hi (fun nf => Hbn nf _ _) h5 Hh5)
    as (h6 & s5 & -> & Hh6 & Hd6). cbn.
  destruct (Hc5 _ _ (relu_ h6) Hh6) as (h7 & s6 & -> & Hh7 & Hd7). cbn.
  exists (tanh h7). split; [done|]. split; [|apply tanh_in_unit_range].
  cbn. rewrite Hh7. repeat f_equal; lia.
Qed.
End Output.


(** ** The properties on the small instance *)

Lemma toy_generator_spec : GeneratorSpec toy_generator.
Proof.
  split.
  - intros g low high n. cbn. by rewrite length_map, length_seq.
  - intros g low high n z Hlt Hin. cbn in Hin.
    apply list_elem_of_fmap in Hin as (i & -> & _).
    pose proof (Z.mod_pos_bound (g + Z.of_nat i) (high - low)). lia.
Qed.

Lemma toy_G_built :
  value (G_init (flags (1 # 2)) 10 3 4 2 0 false) seed = Ok toy_G.
Proof. apply built_Ok. vm_compute. reflexivity. Qed.

Lemma toy_G6_built :
  value (G_init (flags (1 # 4)) 10 3 6 4 0 false) seed = Ok toy_G6.
Proof. apply built_Ok. vm_compute. reflexivity. Qed.




Ltac toy_tensor h Hh :=
  let sh := fresh "sh" in
  destruct h as [sh ? ?]; cbn in Hh; subst sh.

Lemma toy_l1_shape :
  maps_shape (SlimmableLinear_call (flags (1 # 2))) (l1 toy_G) [2; 3] [2; 8].
Proof.
  intros h Hh. toy_tensor h Hh. vm_compute. eauto.
Qed.

Lemma toy_upsamples (b : GBlockP) :
  gb_in b = 4%Z -> gb_out b = 4%Z -> gb_up b = true ->
  upsamples (flags (1 # 2)) b 2 2.
Proof.
  destruct b as [i o u c w]. cbn. intros -> -> ->.
  intros h y hh ww Hh Hy Hd. toy_tensor h Hh. toy_tensor y Hy. cbn in *. eauto 10.
Qed.

Lemma toy_bn_shape (nf : Z) (n hh ww : nat) :
  maps_shape BatchNorm2d_call (BatchNorm2d_new nf)
    [n; Z.to_nat nf; hh; ww] [n; Z.to_nat nf; hh; ww].
Proof.
  intros h Hh. cbn. unfold toy_bn_call. rewrite Hh. cbn.
  rewrite Nat.eqb_refl. eauto.
Qed.

Lemma toy_c5_shape (hh ww : nat) :
  maps_shape (SlimmableConv2d_call (flags (1 # 2))) (c5 toy_G)
    [2; 2; hh; ww] [2; 3; hh; ww].
Proof.
  intros h Hh. toy_tensor h Hh. cbn. eauto 10.
Qed.



(** ** The discriminator: what a call writes *)

(** Whether a call of the discriminator leaves the stored state unchanged
    is decided by its layers: [forward] itself assigns no attribute, and
    writes to the state only through the calls of the six modules it
    selects. *)

Lemma call_item_read_only {A X} (call : X -> M A Tensor) (i : Z) (a : X)
    (ms : list A) :
  read_only call -> (call_item call i a ms).2 = ms.
Proof.
  intros Hc. unfold call_item.
  destruct (abs_index (length ms) i) as [k|e]; [|done].
  destruct (ms !! k) as [m|] eqn:Hk; [|done].
  pose proof (Hc a m) as Hm. destruct (call a m) as [r m']. cbn in *. subst m'.
  by apply list_insert_id.
Qed.

Section Frame.
Context `{Modules}.

Lemma SNEmbedding_call_opt_read_only :
  read_only SNEmbedding_call -> read_only SNEmbedding_call_opt.
Proof. intros He [y|] s; [apply He | done]. Qed.

Lemma D_forward_read_only (fl : FLAGS) (x : Tensor) (y : option Tensor)
    (d : SlimmableCGANPDDiscriminator32) :
  read_only DBlockOptimized_call -> read_only DBlock_call ->
  read_only SNLinear_call -> read_only SNEmbedding_call ->
  (D_forward fl x y d).2 = d.
Proof.
  intros H1 H2 H5 He%SNEmbedding_call_opt_read_only.
  assert (Hp : preserves (fun s => s = d) (D_forward fl x y)).
  { unfold D_forward.
    repeat first
      [ apply preserves_bind; [|intros ?]
      | apply preserves_mret
      | apply preserves_lift
      | apply preserves_attr
      | apply preserves_zoom; intros s r t -> Hm;
        apply (f_equal snd) in Hm; rewrite call_item_read_only in Hm by done;
        cbn in Hm; subst t; by destruct d ]. }
  destruct (D_forward fl x y d) as [r d'] eqn:Hf. by eapply Hp in Hf.
Qed.

(** In every list, the branches other than the selected one keep their
    state. *)
Lemma D_forward_at_frame (k1 k2 k3 k4 k5 ky : nat) (x : Tensor)
    (y : option Tensor) (d d' : SlimmableCGANPDDiscriminator32)
    (r : result Tensor) :
  D_forward_at k1 k2 k3 k4 k5 ky x y d = (r, d') ->
  n_share d' = n_share d /\ ndf d' = ndf d /\ d_num_classes d' = d_num_classes d /\
  (forall j, j <> k1 -> block1s d' !! j = block1s d !! j) /\
  (forall j, j <> k2 -> block2s d' !! j = block2s d !! j) /\
  (forall j, j <> k3 -> block3s d' !! j = block3s d !! j) /\
  (forall j, j <> k4 -> block4s d' !! j = block4s d !! j) /\
  (forall j, j <> k5 -> l5s d' !! j = l5s d !! j) /\
  (forall j, j <> ky -> l_ys d' !! j = l_ys d !! j).
Proof.
  set (Q := fun s : SlimmableCGANPDDiscriminator32 =>
    n_share s = n_share d /\ ndf s = ndf d /\ d_num_classes s = d_num_classes d /\
    (forall j, j <> k1 -> block1s s !! j = block1s d !! j) /\
    (forall j, j <> k2 -> block2s s !! j = block2s d !! j) /\
    (forall j, j <> k3 -> block3s s !! j = block3s d !! j) /\
    (forall j, j <> k4 -> block4s s !! j = block4s d !! j) /\
    (forall j, j <> k5 -> l5s s !! j = l5s d !! j) /\
    (forall j, j <> ky -> l_ys s !! j = l_ys d !! j)).
  assert (Hp : preserves Q (D_forward_at k1 k2 k3 k4 k5 ky x y)).
  { unfold D_forward_at.
    repeat first
      [ apply preserves_bind; [|intros ?]
      | apply preserves_mret
      | apply preserves_lift
      | apply preserves_attr
      | apply preserves_zoom; intros s r0 t (?&?&?&?&?&?&?&?&?) Hm; unfold Q; cbn;
        repeat (split; [done|]); try done;
        repeat split; try done;
        intros j Hj; rewrite (call_at_frame _ _ _ _ _ _ _ Hm Hj); auto ]. }
  intros Hf. apply (Hp d r d'); [|done]. unfold Q. by repeat split.
Qed.
End Frame.

(** On the small instance, whose layers count their calls, a call of the
    discriminator does change the stored state. *)
Lemma toy_forward_counts :
  block1s (D_forward (flags (1 # 2)) x_img (Some y_lbl) (toy_D 0)).2 !! 1
  <> block1s (toy_D 0) !! 1.
Proof. vm_compute. discriminate. Qed.

(* ===================================================================== *)
(** * Further properties of the two classes *)
(* ===================================================================== *)

(** ** The constructor of the discriminator *)

Section MoreDiscriminator.
Context `{Modules}.

Lemma D_layers_attrs (wl : list Q) (d d' : SlimmableCGANPDDiscriminator32)
    (g g' : Rng) :
  D_layers wl d g = (Ok d', g') ->
  d_num_classes d' = d_num_classes d /\ ndf d' = ndf d.
Proof.
  revert d g. induction wl as [|w wl IH]; intros d g; cbn [D_layers].
  - by intros [= <- _].
  - unfold mbind, M_bind. intros Hd.
    repeat (case_match; try discriminate).
    by apply IH in Hd.
Qed.

(** X1. A discriminator that [__init__] returns keeps [num_classes], [ndf]
    and [n_share] as they were passed, with [-1 <= n_share <= 4], and has
    in each of [block1s] .. [block4s], [l5s] and [l_ys] exactly one branch
    per entry of [FLAGS.width_mult_list]. *)
Theorem D_init_layout (fl : FLAGS) (num_classes ndf0 share : Z) (g : Rng)
    (d : SlimmableCGANPDDiscriminator32) :
  value (D_init fl num_classes ndf0 share) g = Ok d ->
  d_num_classes d = num_classes /\ ndf d = ndf0 /\ n_share d = share /\
  (-1 <= share <= 4)%Z /\
  branches d (length (width_mult_list fl)).
Proof.
  intros Hd. pose proof (D_init_inv _ _ _ _ _ _ Hd) as (Hr & Hs & Hb).
  revert Hd. unfold value, D_init.
  destruct (Z.leb_spec (-1) share), (Z.leb_spec share 4); cbn [andb negb]; try lia.
  unfold mbind, M_bind.
  destruct (D_layers _ _ g) as [[d1|e] g1] eqn:Hd1; [|done].
  destruct (mapM (M := M Rng) SNLinear_xavier_uniform_ (l5s d1) g1)
    as [[l5s'|e] g2]; [|done].
  destruct (mapM (M := M Rng) SNEmbedding_xavier_uniform_ (l_ys d1) g2)
    as [[l_ys'|e] g3]; [|done].
  cbn. intros [= <-]. apply D_layers_attrs in Hd1 as [Hc Hn]. cbn in *.
  by rewrite Hc, Hn.
Qed.


End MoreDiscriminator.

Lemma D_init_layout_witness :
  value (D_init (flags 1) 10 2 2) seed = Ok (toy_D 2) /\
  d_num_classes (toy_D 2) = 10%Z /\ ndf (toy_D 2) = 2%Z /\ n_share (toy_D 2) = 2%Z /\
  (-1 <= 2 <= 4)%Z /\ branches (toy_D 2) 4.
Proof.
  assert (Hd : value (D_init (flags 1) 10 2 2) seed = Ok (toy_D 2)).
  { apply toy_D_built. vm_compute. reflexivity. }
  split; [exact Hd|].
  exact (D_init_layout (flags 1) 10 2 2 seed (toy_D 2) Hd).
Defined.


(** ** What a call of the discriminator writes *)

Lemma call_item_frame {A X} (call : X -> M A Tensor) (i : Z) (a : X)
    (ms ms' : list A) (r : result Tensor) :
  call_item call i a ms = (r, ms') ->
  length ms' = length ms /\
  forall j, abs_index (length ms) i <> Ok j -> ms' !! j = ms !! j.
Proof.
  unfold call_item. destruct (abs_index (length ms) i) as [k|e].
  - destruct (ms !! k) as [m|]; [|by intros [= _ <-]].
    destruct (call a m) as [r' m']. intros [= _ <-].
    split; [apply length_insert|].
    intros j Hj. apply list_lookup_insert_ne. congruence.
  - by intros [= _ <-].
Qed.

Lemma preserves_attr_bind {S A B} (Q : S -> Prop) (g : S -> A) (c : A)
    (f : A -> M S B) :
  (forall s, Q s -> g s = c) -> preserves Q (f c) -> preserves Q (attr g ≫= f).
Proof.
  intros Hg Hf s r s' HQ. rewrite bind_attr, (Hg s HQ). by apply Hf.
Qed.

Section Writes.
Context `{Modules}.

(** X3. Whatever it returns or raises, a call of [forward] leaves
    [num_classes], [ndf] and [n_share] as they were, keeps the length of
    each of the six lists, and in each list changes the state of no
    branch other than the one its index expression selects: the branches
    of the other widths are not touched. *)
Theorem D_forward_frame (fl : FLAGS) (x : Tensor) (y : option Tensor)
    (d : SlimmableCGANPDDiscriminator32) :
  d_num_classes (D_forward fl x y d).2 = d_num_classes d /\
  ndf (D_forward fl x y d).2 = ndf d /\
  n_share (D_forward fl x y d).2 = n_share d /\
  (forall n, branches d n -> branches (D_forward fl x y d).2 n) /\
  (forall j,
     abs_index (length (block1s d))
       (if (n_share d >? 0)%Z then -1 else idx_of fl) <> Ok j ->
     block1s (D_forward fl x y d).2 !! j = block1s d !! j) /\
  (forall j,
     abs_index (length (block2s d))
       (if (n_share d >? 1)%Z then -1 else idx_of fl) <> Ok j ->
     block2s (D_forward fl x y d).2 !! j = block2s d !! j) /\
  (forall j,
     abs_index (length (block3s d))
       (if (n_share d >? 2)%Z then -1 else idx_of fl) <> Ok j ->
     block3s (D_forward fl x y d).2 !! j = block3s d !! j) /\
  (forall j,
     abs_index (length (block4s d))
       (if (n_share d >? 3)%Z then -1 else idx_of fl) <> Ok j ->
     block4s (D_forward fl x y d).2 !! j = block4s d !! j) /\
  (forall j,
     abs_index (length (l5s d))
       (if (n_share d =? -1)%Z then -1 else idx_of fl) <> Ok j ->
     l5s (D_forward fl x y d).2 !! j = l5s d !! j) /\
  (forall j,
     abs_index (length (l_ys d)) (idx_of fl) <> Ok j ->
     l_ys (D_forward fl x y d).2 !! j = l_ys d !! j).
Proof.
  set (Q := fun s : SlimmableCGANPDDiscriminator32 =>
    d_num_classes s = d_num_classes d /\ ndf s = ndf d /\ n_share s = n_share d /\
    (length (block1s s) = length (block1s d) /\
     length (block2s s) = length (block2s d) /\
     length (block3s s) = length (block3s d) /\
     length (block4s s) = length (block4s d) /\
     length (l5s s) = length (l5s d) /\
     length (l_ys s) = length (l_ys d)) /\
    (forall j,
       abs_index (length (block1s d))
         (if (n_share d >? 0)%Z then -1 else idx_of fl) <> Ok j ->
       block1s s !! j = block1s d !! j) /\
    (forall j,
       abs_index (length (block2s d))
         (if (n_share d >? 1)%Z then -1 else idx_of fl) <> Ok j ->
       block2s s !! j = block2s d !! j) /\
    (forall j,
       abs_index (length (block3s d))
         (if (n_share d >? 2)%Z then -1 else idx_of fl) <> Ok j ->
       block3s s !! j = block3s d !! j) /\
    (forall j,
       abs_index (length (block4s d))
         (if (n_share d >? 3)%Z then -1 else idx_of fl) <> Ok j ->
       block4s s !! j = block4s d !! j) /\
    (forall j,
       abs_index (length (l5s d))
         (if (n_share d =? -1)%Z then -1 else idx_of fl) <> Ok j ->
       l5s s !! j = l5s d !! j) /\
    (forall j,
       abs_index (length (l_ys d)) (idx_of fl) <> Ok j ->
       l_ys s !! j = l_ys d !! j)).
  assert (Hp : preserves Q (D_forward fl x y)).
  { unfold D_forward. fold (idx_of fl).
    repeat first
      [ apply (preserves_attr_bind Q n_share (n_share d)); [intros s HQ; apply HQ|]
      | apply preserves_bind; [|intros ?]
      | apply preserves_mret
      | apply preserves_lift
      | apply preserves_zoom;
        intros s r0 t (?&?&?&(L1&L2&L3&L4&L5&L6)&?&?&?&?&?&?) [Hl Hf]%call_item_frame;
        unfold Q; cbn;
        repeat (split; [first [done | congruence]|]);
        repeat split; try done; try congruence;
        intros j Hj; rewrite Hf by congruence; auto ]. }
  destruct (D_forward fl x y d) as [r d'] eqn:Hd. cbn.
  destruct (Hp d r d') as (?&?&?&(?&?&?&?&?&?)&?&?&?&?&?&?); [by unfold Q|done|].
  repeat (split; [done|]). split; [|done].
  intros n (?&?&?&?&?&?). unfold branches. repeat split; congruence.
Qed.

End Writes.

(** ** Widths outside the list *)

Lemma abs_index_out (len : nat) (i : Z) :
  (i < - Z.of_nat len \/ Z.of_nat len <= i)%Z -> abs_index len i = Raise IndexError.
Proof.
  intros Hi. unfold abs_index.
  destruct (Z.ltb_spec i (- Z.of_nat len)); [done|].
  destruct (Z.leb_spec (Z.of_nat len) i); [done|]. lia.
Qed.

Lemma bind_raises {S A B} (m : M S A) (f : A -> M S B) (s : S) :
  (forall a s', m s = (Ok a, s') -> exists e, (f a s').1 = Raise e) ->
  exists e, ((m ≫= f) s).1 = Raise e.
Proof.
  unfold mbind, M_bind. intros Hf.
  destruct (m s) as [[a|e] s']; eauto.
Qed.

Lemma int_small (w : Q) : (0 <= w)%Q -> (w < 1 # 4)%Q -> int (w / (1 # 4)) = 0%Z.
Proof.
  unfold Qle, Qlt, int. destruct w as [a d]. cbn. intros Ha Hd.
  apply Z.quot_small. lia.
Qed.

Section Widths.
Context `{Modules}.

(** X4. When [int(FLAGS.width_mult / 0.25) - 1] is not an index of the
    lists (the width is above the last one the module has a branch for,
    or so negative that the index leaves the list from below), [forward]
    never returns logits; and when block 1 is not shared
    ([n_share <= 0]) it raises [IndexError] at once, before any layer
    runs, the module being left as it was. *)
Theorem D_forward_out_of_range (fl : FLAGS) (x : Tensor) (y : option Tensor)
    (d : SlimmableCGANPDDiscriminator32) (n : nat) :
  branches d n ->
  (idx_of fl < - Z.of_nat n \/ Z.of_nat n <= idx_of fl)%Z ->
  (exists e, value (D_forward fl x y) d = Raise e) /\
  ((n_share d <= 0)%Z -> D_forward fl x y d = (Raise IndexError, d)).
Proof.
  intros (L1 & L2 & L3 & L4 & L5 & Ly) Hi. split.
  - unfold value, D_forward. fold (idx_of fl).
    rewrite bind_attr.
    apply bind_raises. intros h1 s1 (t1 & _ & ->)%zoom_inv. rewrite bind_attr.
    apply bind_raises. intros h2 s2 (t2 & _ & ->)%zoom_inv. rewrite bind_attr.
    apply bind_raises. intros h3 s3 (t3 & _ & ->)%zoom_inv. rewrite bind_attr.
    apply bind_raises. intros h4 s4 (t4 & _ & ->)%zoom_inv. rewrite bind_mret_l.
    rewrite bind_lift. destruct (sum_dim23 (relu_ h4)) as [h|e]; [|eauto].
    rewrite bind_attr.
    apply bind_raises. intros o s5 (t5 & _ & ->)%zoom_inv.
    rewrite bind_value, zoom_eq. cbn [l_ys set_block1s set_block2s set_block3s
      set_block4s set_l5s]. unfold call_item.
    rewrite Ly, abs_index_out by done. cbn. eauto.
  - intros Hs. unfold D_forward. fold (idx_of fl). rewrite bind_attr.
    destruct (Z.gtb_spec (n_share d) 0); [lia|].
    unfold mbind, M_bind, zoom, call_item.
    rewrite L1, abs_index_out by done. by destruct d.
Qed.

(** X5. A width multiplier below 0.25 gives the index [-1], which Python
    resolves to the last element: [forward] then runs the last branch of
    each of the six lists, whatever [n_share], and raises no
    [IndexError]. *)
Theorem D_forward_below_first_width (fl : FLAGS) (x : Tensor)
    (y : option Tensor) (d : SlimmableCGANPDDiscriminator32) (n : nat) :
  branches d n -> 0 < n ->
  (0 <= width_mult fl)%Q -> (width_mult fl < 1 # 4)%Q ->
  idx_of fl = (-1)%Z /\
  D_forward fl x y d
  = D_forward_at (n - 1) (n - 1) (n - 1) (n - 1) (n - 1) (n - 1) x y d.
Proof.
  intros (L1 & L2 & L3 & L4 & L5 & Ly) Hn Hw0 Hw1.
  assert (Hi : idx_of fl = (-1)%Z).
  { unfold idx_of. by rewrite int_small. }
  split; [done|].
  apply D_forward_routes; rewrite Hi, ?L1, ?L2, ?L3, ?L4, ?L5, ?Ly;
    try case_match; by apply abs_index_last.
Qed.

End Widths.

Lemma toy_D_branches (share : Z) :
  returns (value (D_init (flags 1) 10 2 share) seed) = true ->
  branches (toy_D share) 4.
Proof. intros Hr. by apply toy_D_built, D_init_inv in Hr as (_ & _ & Hb). Qed.

Lemma D_forward_out_of_range_witness :
  branches (toy_D 0) 4 /\
  (idx_of (flags (5 # 4)) < - Z.of_nat 4 \/ Z.of_nat 4 <= idx_of (flags (5 # 4)))%Z /\
  (exists e, value (D_forward (flags (5 # 4)) x_img (Some y_lbl)) (toy_D 0) = Raise e) /\
  ((n_share (toy_D 0) <= 0)%Z ->
   D_forward (flags (5 # 4)) x_img (Some y_lbl) (toy_D 0)
   = (Raise IndexError, toy_D 0)).
Proof.
  assert (Hb : branches (toy_D 0) 4).
  { apply toy_D_branches. vm_compute. reflexivity. }
  assert (Hi : (idx_of (flags (5 # 4)) < - Z.of_nat 4
                \/ Z.of_nat 4 <= idx_of (flags (5 # 4)))%Z).
  { right. vm_compute. discriminate. }
  split; [exact Hb|]. split; [exact Hi|].
  exact (D_forward_out_of_range (flags (5 # 4)) x_img (Some y_lbl) (toy_D 0) 4 Hb Hi).
Defined.

Lemma D_forward_below_first_width_witness :
  branches (toy_D 0) 4 /\ (0 <= 1 # 10)%Q /\ (1 # 10 < 1 # 4)%Q /\
  idx_of (flags (1 # 10)) = (-1)%Z /\
  D_forward (flags (1 # 10)) x_img (Some y_lbl) (toy_D 0)
  = D_forward_at 3 3 3 3 3 3 x_img (Some y_lbl) (toy_D 0).
Proof.
  assert (Hb : branches (toy_D 0) 4).
  { apply toy_D_branches. vm_compute. reflexivity. }
  assert (H0 : (0 <= 1 # 10)%Q) by (vm_compute; discriminate).
  assert (H1 : (1 # 10 < 1 # 4)%Q) by (vm_compute; reflexivity).
  split; [exact Hb|]. split; [exact H0|]. split; [exact H1|].
  exact (D_forward_below_first_width (flags (1 # 10)) x_img (Some y_lbl) (toy_D 0) 4
           Hb ltac:(lia) H0 H1).
Defined.

(** ** A call without labels fails late *)

Lemma bind_both_state {S A B} (P : result B * S -> result B * S -> Prop)
    (m : M S A) (f f' : A -> M S B) (s : S) :
  (forall e s', P (Raise e, s') (Raise e, s')) ->
  (forall a s', m s = (Ok a, s') -> P (f a s') (f' a s')) ->
  P ((m ≫= f) s) ((m ≫= f') s).
Proof.
  unfold mbind, M_bind. intros He Hf.
  destruct (m s) as [[a|e] s']; eauto.
Qed.

Section Late.
Context `{Modules}.

(** X6. The failure of [forward] on [y = None] comes after the work: a
    call without labels leaves the four lists of blocks and [l5s] in
    exactly the state the same call with any tensor of labels leaves
    them in, so the blocks and the final linear layer have run, and
    written what they write, before the exception. *)
Theorem D_forward_None_effects (fl : FLAGS) (x y : Tensor)
    (d : SlimmableCGANPDDiscriminator32) :
  block1s (D_forward fl x None d).2 = block1s (D_forward fl x (Some y) d).2 /\
  block2s (D_forward fl x None d).2 = block2s (D_forward fl x (Some y) d).2 /\
  block3s (D_forward fl x None d).2 = block3s (D_forward fl x (Some y) d).2 /\
  block4s (D_forward fl x None d).2 = block4s (D_forward fl x (Some y) d).2 /\
  l5s (D_forward fl x None d).2 = l5s (D_forward fl x (Some y) d).2.
Proof.
  set (P := fun p p' : result Tensor * SlimmableCGANPDDiscriminator32 =>
    block1s p.2 = block1s p'.2 /\ block2s p.2 = block2s p'.2 /\
    block3s p.2 = block3s p'.2 /\ block4s p.2 = block4s p'.2 /\
    l5s p.2 = l5s p'.2).
  change (P (D_forward fl x None d) (D_forward fl x (Some y) d)).
  assert (He : forall e s', P (Raise e, s') (Raise e, s')) by done.
  unfold D_forward. fold (idx_of fl).
  do 12 (apply (bind_both_state P); [exact He|]; intros ? ? _).
  match goal with |- P (?m1 ?s) (?m2 ?s) =>
    assert (Hk : forall yy,
      preserves (fun s' => block1s s' = block1s s /\ block2s s' = block2s s /\
                   block3s s' = block3s s /\ block4s s' = block4s s /\
                   l5s s' = l5s s)
        (zoom l_ys set_l_ys (call_item SNEmbedding_call_opt (idx_of fl) yy)
         ≫= fun w_y => lift (mul w_y a8)
         ≫= fun p => lift (sum_dim1_keepdim p)
         ≫= fun s0 => lift (iadd a10 s0) ≫= fun output => mret output));
    [|destruct (m1 s) as [r1 s1] eqn:E1; destruct (m2 s) as [r2 s2] eqn:E2;
      apply (Hk None) in E1; [|done]; apply (Hk (Some y)) in E2; [|done];
      unfold P; cbn; destruct E1 as (->&->&->&->&->), E2 as (->&->&->&->&->); done]
  end.
  intros yy.
  repeat first
    [ apply preserves_bind; [|intros ?]
    | apply preserves_mret
    | apply preserves_lift
    | apply preserves_zoom; intros s r t HQ _; exact HQ ].
Qed.

End Late.

(** ** The sizes the generator is built with *)

Lemma int_mono (q q' : Q) : (q <= q')%Q -> (int q <= int q')%Z.
Proof.
  unfold Qle, int. intros Hq.
  rewrite <-(Z.quot_mul_cancel_r (Qnum q) (Z.pos (Qden q)) (Z.pos (Qden q'))) by lia.
  rewrite <-(Z.quot_mul_cancel_r (Qnum q') (Z.pos (Qden q')) (Z.pos (Qden q))) by lia.
  replace (Z.pos (Qden q') * Z.pos (Qden q))%Z
    with (Z.pos (Qden q) * Z.pos (Qden q'))%Z by lia.
  apply Z.quot_le_mono; lia.
Qed.

Lemma scale_mono (c : Z) (w w' : Q) :
  (0 <= c)%Z -> (w <= w')%Q -> (inject_Z c * w <= inject_Z c * w')%Q.
Proof.
  unfold Qle. destruct w as [a d], w' as [a' d']. cbn. nia.
Qed.

(** When [ngf * w] is an integer [c], [int(ngf * w)] is [c] and
    [int(bottom_width^2 * ngf * w)] is [bottom_width^2 * c]. *)
Lemma features_fill_maps (fl : FLAGS) (bw ngf0 c : Z) :
  (inject_Z ngf0 * width_mult fl == inject_Z c)%Q ->
  channels fl ngf0 = c /\
  l1_features fl bw ngf0 = (bw ^ 2 * c)%Z /\
  (bw ^ 2 | l1_features fl bw ngf0)%Z.
Proof.
  intros Hc.
  assert (Hl : l1_features fl bw ngf0 = (bw ^ 2 * c)%Z).
  { unfold l1_features. apply int_inject_Z.
    rewrite !inject_Z_mult, <-Qmult_assoc, Hc. reflexivity. }
  split; [by apply int_inject_Z|]. split; [done|].
  rewrite Hl. by exists c; lia.
Qed.

(** For [ngf >= 0] both counts grow with the width. *)
Lemma features_monotone (fl fl' : FLAGS) (bw ngf0 : Z) :
  (0 <= ngf0)%Z -> (width_mult fl <= width_mult fl')%Q ->
  (channels fl ngf0 <= channels fl' ngf0)%Z /\
  (l1_features fl bw ngf0 <= l1_features fl' bw ngf0)%Z.
Proof.
  intros Hn Hw. unfold channels, l1_features.
  split; apply int_mono, scale_mono; try done. nia.
Qed.

(** For [ngf >= 0] and [0 <= w <= 1] both counts stay within those of
    the full width. *)
Lemma features_bounds (fl : FLAGS) (bw ngf0 : Z) :
  (0 <= ngf0)%Z -> (0 <= width_mult fl)%Q -> (width_mult fl <= 1)%Q ->
  (0 <= channels fl ngf0 <= ngf0)%Z /\
  (0 <= l1_features fl bw ngf0 <= bw ^ 2 * ngf0)%Z.
Proof.
  intros Hn H0 H1.
  assert (Hb : forall c, (0 <= c)%Z ->
    (0 <= int (inject_Z c * width_mult fl) <= c)%Z).
  { intros c Hc. split.
    - apply (channels_nonneg fl c Hc H0).
    - rewrite <-(int_inject_Z (inject_Z c * 1) c) at 2 by (by rewrite Qmult_1_r).
      by apply int_mono, scale_mono. }
  split; [by apply Hb|]. apply Hb. nia.
Qed.

Section MoreGenerator.
Context `{Modules}.

(** X7. A generator that [__init__] returns keeps [num_classes], [nz],
    [ngf] and [bottom_width] as they were passed; the six per-width lists
    of [l1], [b5] and [c5], and the list of batch normalisations, have
    one entry per entry of [FLAGS.width_mult_list]; and at every width
    the channels [b5] normalises are the input channels of [c5]. *)
Theorem G_init_layout (fl : FLAGS) (num_classes nz0 ngf0 bw : Z) (al : Q)
    (sw : bool) (rng : Rng) (g : SlimmableCGANPDGenerator32) :
  value (G_init fl num_classes nz0 ngf0 bw al sw) rng = Ok g ->
  g_num_classes g = num_classes /\ nz g = nz0 /\ ngf g = ngf0 /\
  bottom_width g = bw /\
  length (in_features_list (l1 g)) = length (width_mult_list fl) /\
  length (out_features_list (l1 g)) = length (width_mult_list fl) /\
  length (num_features_list (b5 g)) = length (width_mult_list fl) /\
  length (bn (b5 g)) = length (width_mult_list fl) /\
  length (in_channels_list (c5 g)) = length (width_mult_list fl) /\
  length (out_channels_list (c5 g)) = length (width_mult_list fl) /\
  num_features_list (b5 g) = in_channels_list (c5 g).
Proof.
  intros (-> & -> & -> & -> & -> & -> & -> & -> & -> & _)%G_init_inv.
  cbn. by rewrite !length_map.
Qed.


(** X9. For [ngf >= 0] the sizes [__init__] gives the layers grow with
    the width: where the width at position [i] is at most the one at
    position [j], the output features of [l1] and the channels of [b5]
    and [c5] at [i] are at most those at [j]. *)
Theorem G_init_sizes_monotone (fl : FLAGS) (num_classes nz0 ngf0 bw : Z)
    (al : Q) (sw : bool) (rng : Rng) (g : SlimmableCGANPDGenerator32)
    (i j : nat) (w w' : Q) :
  value (G_init fl num_classes nz0 ngf0 bw al sw) rng = Ok g ->
  (0 <= ngf0)%Z ->
  width_mult_list fl !! i = Some w -> width_mult_list fl !! j = Some w' ->
  (w <= w')%Q ->
  exists fi fj ci cj,
    out_features_list (l1 g) !! i = Some fi /\
    out_features_list (l1 g) !! j = Some fj /\ (fi <= fj)%Z /\
    num_features_list (b5 g) !! i = Some ci /\
    num_features_list (b5 g) !! j = Some cj /\
    in_channels_list (c5 g) !! i = Some ci /\
    in_channels_list (c5 g) !! j = Some cj /\ (ci <= cj)%Z.
Proof.
  intros (_ & _ & _ & _ & _ & -> & -> & -> & _)%G_init_inv Hn Hi Hj Hw.
  destruct (features_monotone (mkFLAGS w []) (mkFLAGS w' []) bw ngf0 Hn Hw)
    as [Hc Hl].
  unfold channels, l1_features in *. cbn in *.
  rewrite !list_lookup_fmap, Hi, Hj. cbn. eauto 12.
Qed.

(** X10. For [ngf >= 0] and width multipliers all in [[0, 1]], no layer
    is built larger than at full width: every per-width count of [b5]
    and [c5] lies in [[0, ngf]] and every output feature count of [l1]
    in [[0, bottom_width^2 * ngf]]. *)
Theorem G_init_sizes_bounded (fl : FLAGS) (num_classes nz0 ngf0 bw : Z)
    (al : Q) (sw : bool) (rng : Rng) (g : SlimmableCGANPDGenerator32) :
  value (G_init fl num_classes nz0 ngf0 bw al sw) rng = Ok g ->
  (0 <= ngf0)%Z ->
  Forall (fun w => 0 <= w /\ w <= 1)%Q (width_mult_list fl) ->
  Forall (fun z => 0 <= z <= ngf0)%Z (num_features_list (b5 g)) /\
  Forall (fun z => 0 <= z <= ngf0)%Z (in_channels_list (c5 g)) /\
  Forall (fun z => 0 <= z <= bw ^ 2 * ngf0)%Z (out_features_list (l1 g)).
Proof.
  intros (_ & _ & _ & _ & _ & -> & -> & -> & _)%G_init_inv Hn Hw. cbn.
  repeat split; apply Forall_fmap; eapply Forall_impl; try exact Hw;
    intros w [Hw0 Hw1]; cbn;
    destruct (features_bounds (mkFLAGS w []) bw ngf0 Hn Hw0 Hw1) as [Hc Hl];
    unfold channels, l1_features in *; cbn in *; done.
Qed.

End MoreGenerator.

Lemma G_init_layout_witness :
  value (G_init (flags (1 # 2)) 10 3 4 2 0 false) seed = Ok toy_G /\
  g_num_classes toy_G = 10%Z /\ nz toy_G = 3%Z /\ ngf toy_G = 4%Z /\
  bottom_width toy_G = 2%Z /\
  length (in_features_list (l1 toy_G)) = 4 /\
  length (out_features_list (l1 toy_G)) = 4 /\
  length (num_features_list (b5 toy_G)) = 4 /\
  length (bn (b5 toy_G)) = 4 /\
  length (in_channels_list (c5 toy_G)) = 4 /\
  length (out_channels_list (c5 toy_G)) = 4 /\
  num_features_list (b5 toy_G) = in_channels_list (c5 toy_G).
Proof.
  split; [exact toy_G_built|].
  exact (G_init_layout (flags (1 # 2)) 10 3 4 2 0 false seed toy_G toy_G_built).
Defined.


Lemma G_init_sizes_monotone_witness :
  value (G_init (flags (1 # 4)) 10 3 6 4 0 false) seed = Ok toy_G6 /\
  (0 <= 6)%Z /\ (1 # 4 <= 3 # 4)%Q /\
  exists fi fj ci cj,
    out_features_list (l1 toy_G6) !! 0 = Some fi /\
    out_features_list (l1 toy_G6) !! 2 = Some fj /\ (fi <= fj)%Z /\
    num_features_list (b5 toy_G6) !! 0 = Some ci /\
    num_features_list (b5 toy_G6) !! 2 = Some cj /\
    in_channels_list (c5 toy_G6) !! 0 = Some ci /\
    in_channels_list (c5 toy_G6) !! 2 = Some cj /\ (ci <= cj)%Z.
Proof.
  assert (Hn : (0 <= 6)%Z) by lia.
  assert (Hw : (1 # 4 <= 3 # 4)%Q) by (vm_compute; discriminate).
  split; [exact toy_G6_built|]. split; [exact Hn|]. split; [exact Hw|].
  exact (G_init_sizes_monotone (flags (1 # 4)) 10 3 6 4 0 false seed toy_G6 0 2
           (1 # 4) (3 # 4) toy_G6_built Hn eq_refl eq_refl Hw).
Defined.

Lemma flags_unit (w : Q) :
  Forall (fun w => 0 <= w /\ w <= 1)%Q (width_mult_list (flags w)).
Proof. repeat constructor; vm_compute; discriminate. Qed.

Lemma G_init_sizes_bounded_witness :
  value (G_init (flags (1 # 4)) 10 3 6 4 0 false) seed = Ok toy_G6 /\
  (0 <= 6)%Z /\
  Forall (fun z => 0 <= z <= 6)%Z (num_features_list (b5 toy_G6)) /\
  Forall (fun z => 0 <= z <= 6)%Z (in_channels_list (c5 toy_G6)) /\
  Forall (fun z => 0 <= z <= 4 ^ 2 * 6)%Z (out_features_list (l1 toy_G6)).
Proof.
  assert (Hn : (0 <= 6)%Z) by lia.
  split; [exact toy_G6_built|]. split; [exact Hn|].
  exact (G_init_sizes_bounded (flags (1 # 4)) 10 3 6 4 0 false seed toy_G6
           toy_G6_built Hn (flags_unit (1 # 4))).
Defined.

(** ** The default labels of the generator: the cases that raise *)

Lemma bind_raise {S A B} (m : M S A) (f : A -> M S B) (s s' : S) (e : exn) :
  m s = (Raise e, s') -> (m ≫= f) s = (Raise e, s').
Proof. unfold mbind, M_bind. by intros ->. Qed.

Section Defaults.
Context `{Modules}.

(** X11. Called with [y = None], the generator fails before any of its
    layers runs, leaving the module and torch's generator as they were,
    in two cases: on a tensor without dimensions, where [x.shape[0]]
    raises [IndexError], and with [num_classes <= 0], where
    [torch.randint] has no label to draw and raises [RuntimeError]. *)
Theorem G_forward_None_errors (fl : FLAGS) (x : Tensor)
    (g : SlimmableCGANPDGenerator32) (rng : Rng) :
  (shape x = [] ->
   G_forward fl x None (g, rng) = (Raise IndexError, (g, rng))) /\
  (forall n, shape0 x = Ok n -> (g_num_classes g <= 0)%Z ->
   G_forward fl x None (g, rng) = (Raise RuntimeError, (g, rng))).
Proof.
  split.
  - intros Hx. unfold G_forward. apply bind_raise.
    rewrite bind_attr, bind_lift. unfold shape0. by rewrite Hx.
  - intros n Hn Hc. unfold G_forward. apply bind_raise.
    rewrite bind_attr, bind_lift, Hn. unfold on_rng. rewrite zoom_eq.
    cbn. unfold randint. destruct (Z.ltb_spec 0 (g_num_classes g)); [lia|done].
Qed.

End Defaults.

(** ** When the view of the generator fails *)

Lemma view_fails (h : Tensor) (n f : nat) (bw : Z) :
  0 < n -> (0 < bw)%Z -> shape h = [n; f] ->
  f mod (Z.to_nat bw * Z.to_nat bw) <> 0 ->
  view_infer1 h n bw bw = Raise RuntimeError.
Proof.
  intros Hn Hbw Hs Hf. unfold view_infer1. rewrite Hs.
  destruct (Z.ltb_spec bw 0); [lia|]. cbn [orb numel foldr].
  set (b := Z.to_nat bw) in *.
  assert (Hb : 0 < b) by (unfold b; lia).
  destruct (Nat.eqb_spec (n * b * b) 0); [done|].
  replace (n * (f * 1)) with (n * f) by lia.
  replace (n * b * b) with (n * (b * b)) by lia.
  rewrite Nat.Div0.mul_mod_distr_l.
  destruct (Nat.eqb_spec (n * (f mod (b * b))) 0); [nia|done].
Qed.

Section ViewFails.
Context `{Modules}.


End ViewFails.

Lemma toy_l1_shape6 :
  maps_shape (SlimmableLinear_call (flags (1 # 4))) (l1 toy_G6)
    [2; Z.to_nat 3] [2; Z.to_nat (l1_features (flags (1 # 4)) 4 6)].
Proof.
  intros h Hh. toy_tensor h Hh. vm_compute. eauto.
Qed.

